(** * Forward-mode AD over UFL expression nodes (ufl/algorithms/forward_ad.py)

    A shallow embedding of the forward-mode differentiation visitor:
    the generic [ForwardAD] rules, the three specialisations ([SpatialAD],
    [VariableAD], [CoefficientAD]) and the default visit that dispatches on
    the kind of a node.

    Conventions of the embedding.
    - An expression node is a kind tag, its operands and its cached
      signature (shape, free indices, index dimensions).
    - A Python tuple is a list, a Python dict with [Index] keys is a [gmap].
    - A method of the visitor is a computation in the monad [M]: it returns a
      value and a new [World], or raises a Python exception.  The [World]
      holds what the run mutates: the two caches of the visitor, the global
      counter behind [indices(n)] and the log written by [warning], [debug]
      and [print].
    - The derivative component of a result pair is an [option Expr]: [None]
      is Python's [None].
    - The operators, constructors and predicates that [forward_ad.py] imports
      from the node model are the fields of the class [NodeModel]; the rules
      are stated for every implementation of it.  An operation of the node
      model is a total function on nodes: which node it builds, simplified
      or not, is up to the implementation. *)

From stdpp Require Import base gmap list strings.
From Stdlib Require Import ZArith.

#[local] Set Warnings "-register-all,-clear-no-such-hyp".
#[local] Open Scope string_scope.
#[local] Open Scope list_scope.

(** ** Indices, shapes and node kinds *)

(** An [Index] object is identified by its count. *)
Definition Index := nat.

(** An entry of a multi-index: a symbolic [Index] or a [FixedIndex]. *)
Inductive IndexBase :=
| Idx (i : Index)
| FixedIndex (v : nat).

#[global] Instance IndexBase_eq_dec : EqDecision IndexBase.
Proof. solve_decision. Defined.

(** An entry of a subscript [A[...]]: an index or the slice [:]. *)
Inductive Subscript :=
| At (i : IndexBase)
| Colon.

(** The side of a restriction: ["+"] or ["-"]. *)
Inductive Side := Plus | Minus.

#[global] Instance Side_eq_dec : EqDecision Side.
Proof. solve_decision. Defined.

(** Python floats occur only as literals of the rules; they stay symbolic. *)
Inductive PyFloat :=
| Flit (num : Z) (den : positive)
| Fpi.

#[global] Instance PyFloat_eq_dec : EqDecision PyFloat.
Proof. solve_decision. Defined.

Definition Shape := list nat.

(** The classes of the node model that [forward_ad.py] names. *)
Inductive Kind :=
(* terminals *)
| KZero | KIntValue (v : Z) | KFloatValue (v : PyFloat) | KIdentity (d : nat)
| KSpatialCoordinate | KFacetNormal
| KConstant (count : nat) | KCoefficient (count : nat) | KArgument (count : nat)
| KMultiIndex (ii : list IndexBase) | KLabel (count : nat)
| KTuple | KExprMapping
(* wrappers and indexing *)
| KVariable | KIndexed | KListTensor | KComponentTensor
(* algebra *)
| KIndexSum | KSum | KProduct | KDivision | KPower | KAbs
(* compound tensor algebra *)
| KTransposed | KOuter | KInner | KDot | KCross | KTrace
| KDeterminant | KInverse | KDeviatoric | KCofactor
(* math functions *)
| KMathFunction (name : string)
| KSqrt | KExp | KLn | KCos | KSin | KTan | KAcos | KAsin | KAtan | KErf
| KBesselJ | KBesselY | KBesselI | KBesselK
(* restrictions *)
| KPositiveRestricted | KNegativeRestricted
(* conditions *)
| KEQ | KNE | KLE | KGE | KLT | KGT | KNotCondition | KConditional
(* derivatives *)
| KSpatialDerivative | KVariableDerivative | KCoefficientDerivative.

#[global] Instance Kind_eq_dec : EqDecision Kind.
Proof. solve_decision. Defined.

(** An expression node: kind, operands, cached shape, cached free indices and
    cached index dimensions. *)
Inductive Expr :=
| Node (k : Kind) (ops : list Expr) (sh : Shape) (fi : list Index)
       (idims : gmap Index nat).

#[global] Instance Expr_eq_dec : EqDecision Expr.
Proof.
  refine (fix go (x y : Expr) {struct x} : Decision (x = y) :=
    match x, y with
    | Node k1 o1 s1 f1 d1, Node k2 o2 s2 f2 d2 =>
        cast_if_and5 (decide (k1 = k2)) (@list_eq_dec _ go o1 o2)
          (decide (s1 = s2)) (decide (f1 = f2)) (decide (d1 = d2))
    end); abstract congruence.
Defined.

Definition kind (o : Expr) : Kind := let 'Node k _ _ _ _ := o in k.
Definition operands (o : Expr) : list Expr := let 'Node _ ops _ _ _ := o in ops.
Definition shape (o : Expr) : Shape := let 'Node _ _ sh _ _ := o in sh.
Definition free_indices (o : Expr) : list Index := let 'Node _ _ _ fi _ := o in fi.
Definition index_dimensions (o : Expr) : gmap Index nat :=
  let 'Node _ _ _ _ idims := o in idims.
Definition rank (o : Expr) : nat := length (shape o).

(** [Zero(shape, free_indices, index_dimensions)], [IntValue(value, shape,
    free_indices, index_dimensions)], [FloatValue(value)], [Identity(dim)]. *)
Definition Zero (sh : Shape) (fi : list Index) (idims : gmap Index nat) : Expr :=
  Node KZero [] sh fi idims.
Definition IntValue (v : Z) (sh : Shape) (fi : list Index)
    (idims : gmap Index nat) : Expr :=
  Node (KIntValue v) [] sh fi idims.
Definition FloatValue (v : PyFloat) : Expr := Node (KFloatValue v) [] [] [] ∅.
Definition Identity (d : nat) : Expr := Node (KIdentity d) [] [d; d] [] ∅.

(** [isinstance(x, Zero)] and [isinstance(x, ConstantValue)]. *)
Definition isinstance_Zero (o : Expr) : bool :=
  match kind o with KZero => true | _ => false end.
Definition isinstance_ConstantValue (o : Expr) : bool :=
  match kind o with
  | KZero | KIntValue _ | KFloatValue _ | KIdentity _ => true
  | _ => false
  end.

(** The entries of a [MultiIndex] node ([ii._indices], iteration, [len]). *)
Definition _indices (ii : Expr) : list IndexBase :=
  match kind ii with KMultiIndex l => l | _ => [] end.

(** A result pair [(primal, derivative)]; the derivative may be [None]. *)
Definition Pair : Type := Expr * option Expr.

(** [isinstance(d, Zero)] on the derivative component of a pair. *)
Definition is_Zero (d : option Expr) : bool :=
  match d with Some e => isinstance_Zero e | None => false end.

(** ** Exceptions, log and the state of a run *)

Inductive Exn :=
| UFLException (msg : string)   (* [error(msg)] and a failed [ufl_assert] *)
| ValueError                    (* unpacking a tuple of the wrong length *)
| TypeError                     (* a rule called on the wrong number of
                                   operand results *)
| NoneOperand                   (* [None] used as an expression: depending
                                   on the operation Python raises a
                                   TypeError, an AttributeError or the node
                                   model's own error *)
| KeyError                      (* [d[k]] on a missing key *)
| IndexError                    (* [t[0]] on an empty tuple *)
| AttributeError.               (* a missing attribute *)

Inductive LogRecord :=
| Warning (msg : string)
| Debug (msg : string)
| Print (msg : string).

#[global] Instance LogRecord_eq_dec : EqDecision LogRecord.
Proof. solve_decision. Defined.

Record World := mkWorld {
  _cache : list (Expr * Pair);           (* [self._cache] *)
  _variable_cache : list (Expr * Pair);  (* [self._variable_cache] *)
  index_count : nat;                     (* counter of [Index] objects *)
  log : list LogRecord                   (* records written so far *)
}.

Inductive Outcome (A : Type) :=
| Raise (e : Exn)
| Return (a : A) (w : World).
Arguments Raise {A} e.
Arguments Return {A} a w.

Definition M (A : Type) : Type := World → Outcome A.

Definition ret {A} (a : A) : M A := fun w => Return a w.
Definition raise {A} (e : Exn) : M A := fun _ => Raise e.
Definition bind {A B} (m : M A) (k : A → M B) : M B :=
  fun w => match m w with
           | Raise e => Raise e
           | Return a w' => k a w'
           end.

Notation "'let*' x ':=' m 'in' k" := (bind m (fun x => k))
  (at level 10, x pattern, m at level 100, k at level 200).
Notation "m ';;' k" := (bind m (fun _ => k))
  (at level 100, k at level 200, right associativity).

(** [error(msg)], [ufl_assert(cond, msg)], [warning(msg)], [debug(msg)] and
    the [print] statement.  Interpolated text is left out of the message. *)
Definition error {A} (msg : string) : M A := raise (UFLException msg).
Definition ufl_assert (cond : bool) (msg : string) : M unit :=
  if cond then ret tt else error msg.
Definition emit (r : LogRecord) : M unit :=
  fun w => Return tt (mkWorld (_cache w) (_variable_cache w) (index_count w)
                        (log w ++ [r])).
Definition warning (msg : string) : M unit := emit (Warning msg).
Definition debug (msg : string) : M unit := emit (Debug msg).
Definition print (msg : string) : M unit := emit (Print msg).

(** The warnings of a log. *)
Definition warnings (l : list LogRecord) : list string :=
  omap (fun r => match r with Warning m => Some m | _ => None end) l.

(** [indices(n)]: [n] new [Index] objects. *)
Definition indices (n : nat) : M (list Index) :=
  fun w => Return (seq (index_count w) n)
             (mkWorld (_cache w) (_variable_cache w) (index_count w + n) (log w)).

(** Dictionary access on the two caches: [d.get(k)] and [d[k] = v]. *)
Fixpoint dict_get {V} (d : list (Expr * V)) (k : Expr) : option V :=
  match d with
  | [] => None
  | (k', v) :: d' => if decide (k = k') then Some v else dict_get d' k
  end.
Definition dict_set {V} (d : list (Expr * V)) (k : Expr) (v : V) : list (Expr * V) :=
  (k, v) :: filter (fun kv => kv.1 ≠ k) d.

Definition cache_get (o : Expr) : M (option Pair) :=
  fun w => Return (dict_get (_cache w) o) w.
Definition cache_set (o : Expr) (r : Pair) : M unit :=
  fun w => Return tt (mkWorld (dict_set (_cache w) o r) (_variable_cache w)
                        (index_count w) (log w)).
Definition variable_cache_get (l : Expr) : M (option Pair) :=
  fun w => Return (dict_get (_variable_cache w) l) w.
Definition variable_cache_set (l : Expr) (r : Pair) : M unit :=
  fun w => Return tt (mkWorld (_cache w) (dict_set (_variable_cache w) l r)
                        (index_count w) (log w)).

(** Tuple unpacking [a, = t], [a, b = t] and the first entry [t[0]]. *)
Definition unpack1 {A} (t : list A) : M A :=
  match t with [a] => ret a | _ => raise ValueError end.
Definition unpack2 {A} (t : list A) : M (A * A) :=
  match t with [a; b] => ret (a, b) | _ => raise ValueError end.
Definition first {A} (t : list A) : M A :=
  match t with a :: _ => ret a | [] => raise IndexError end.

Notation "'unpack' ( a , b ) ':=' t 'in' k" :=
  (match t with
   | [a; b] => k
   | _ => raise ValueError
   end)
  (at level 10, a name, b name, t at level 100, k at level 200).

(** [None] reaching an operation that needs an expression raises. *)
Definition as_expr (d : option Expr) : M Expr :=
  match d with Some e => ret e | None => raise NoneOperand end.

(** [unzip(seq)] of ufl.common. *)
Definition unzip {A B} (l : list (A * B)) : list A * list B := (l.*1, l.*2).

(** Visiting the operands in order: [map(self.visit, o.operands())]. *)
Section MapM.
Context {A B : Type} (f : A → M B).
Fixpoint mapM (l : list A) : M (list B) :=
  match l with
  | [] => ret []
  | x :: l' => let* y := f x in let* ys := mapM l' in ret (y :: ys)
  end.
End MapM.

(** [foldM]: a [for] loop that threads an accumulator. *)
Section FoldM.
Context {A B : Type} (f : B → A → M B).
Fixpoint foldM (l : list A) (b : B) : M B :=
  match l with
  | [] => ret b
  | x :: l' => let* b' := f b x in foldM l' b'
  end.
End FoldM.

(** ** The interface of the node model

    Everything [forward_ad.py] calls on expression nodes without defining it:
    the operator overloads of [Expr], the node constructors, the functions of
    [ufl.operators] and a few queries.  Python numbers are passed through
    [as_ufl] before they reach an operator. *)

(** A value of the partial-derivative table [coefficient_derivatives._data]:
    one expression or a tuple of expressions. *)
Inductive CdValue :=
| One (e : Expr)
| Many (es : list Expr).

(** The index argument of a constructor: a [MultiIndex] node, a tuple of
    indices or a single index. *)
Inductive IndexArg :=
| Multi (ii : Expr)
| Tup (ii : list IndexBase)
| Single (i : IndexBase).

Module ufl.
Class NodeModel := {
  (* operator overloads: [a + b], [a - b], [a * b], [a / b], [a ** b], [-a],
     [a[ii]] and the restriction [a(side)] *)
  _add : Expr → Expr → Expr;
  _sub : Expr → Expr → Expr;
  _mul : Expr → Expr → Expr;
  _div : Expr → Expr → Expr;
  _pow : Expr → Expr → Expr;
  _neg : Expr → Expr;
  _getitem : Expr → list Subscript → Expr;
  _restrict : Expr → Side → Expr;
  (* constructors *)
  Indexed : Expr → IndexArg → Expr;
  ListTensor : list Expr → Expr;
  ComponentTensor : Expr → IndexArg → Expr;
  IndexSum : Expr → IndexArg → Expr;
  Product : list Expr → Expr;
  SpatialDerivative : Expr → IndexArg → Expr;
  Variable_ : Expr → Expr → Expr;
  as_tensor : Expr → list Index → Expr;
  (* ufl.operators *)
  sign : Expr → Expr;
  sqrt : Expr → Expr;
  exp : Expr → Expr;
  ln : Expr → Expr;
  cos : Expr → Expr;
  sin : Expr → Expr;
  bessel_J : Expr → Expr → Expr;
  bessel_Y : Expr → Expr → Expr;
  bessel_I : Expr → Expr → Expr;
  bessel_K : Expr → Expr → Expr;
  conditional : Expr → Expr → Expr → Expr;
  (* queries *)
  reconstruct : Expr → list Expr → Expr;      (* [o.reconstruct] on new operands *)
  is_spatially_constant : Expr → bool;
  derivative_attr : Expr → option Expr;       (* [o.derivative()], when
                                                 [hasattr(o, 'derivative')] *)
  _eq_int : Expr → Z → bool;                  (* [o == n] for a Python int *)
  _data : Expr → list (Expr * CdValue)        (* [cd._data] of an ExprMapping *)
}.
End ufl.

Declare Scope ufl_scope.
Delimit Scope ufl_scope with ufl.
Notation "a + b" := (ufl._add a b) : ufl_scope.
Notation "a - b" := (ufl._sub a b) : ufl_scope.
Notation "a * b" := (ufl._mul a b) : ufl_scope.
Notation "a / b" := (ufl._div a b) : ufl_scope.
Notation "a ** b" := (ufl._pow a b) (at level 30, right associativity) : ufl_scope.
Notation "- a" := (ufl._neg a) : ufl_scope.

(** [as_ufl] on the Python numbers that occur in the rules. *)
Definition as_ufl_int (v : Z) : Expr := IntValue v [] [] ∅.
Definition as_ufl_float (n : Z) (d : positive) : Expr := FloatValue (Flit n d).
Definition pi : Expr := FloatValue Fpi.

(** [o._side] of a restriction. *)
Definition _side (o : Expr) : Side :=
  match kind o with KPositiveRestricted => Plus | _ => Minus end.

(** Modelled from the spec: [is_ufl_scalar] and [is_true_ufl_scalar] of
    ufl.constantvalue, which the source imports: a scalar has the empty
    shape, a true scalar has neither shape nor free indices. *)
Definition is_ufl_scalar (o : Expr) : bool := bool_decide (shape o = []).
Definition is_true_ufl_scalar (o : Expr) : bool :=
  bool_decide (shape o = []) && bool_decide (free_indices o = []).

(** Modelled from the spec: [unique_indices] of ufl.indexutils, which merges
    index tuples without duplication: every index once, in order of first
    occurrence. *)
Fixpoint unique_indices_from (seen : list Index) (l : list Index) : list Index :=
  match l with
  | [] => []
  | i :: l' =>
      if decide (i ∈ seen) then unique_indices_from seen l'
      else i :: unique_indices_from (i :: seen) l'
  end.
Definition unique_indices (l : list Index) : list Index := unique_indices_from [] l.

(** Modelled from the spec: [subdict(d, keys)] of ufl.common, the dictionary
    [d] restricted to [keys]; a key missing from [d] is a [KeyError]. *)
Fixpoint subdict (d : gmap Index nat) (keys : list Index) : M (gmap Index nat) :=
  match keys with
  | [] => ret ∅
  | k :: keys' =>
      match d !! k with
      | None => raise KeyError
      | Some v => let* r := subdict d keys' in ret (<[k := v]> r)
      end
  end.

(** [d[k]] on a dictionary of index dimensions. *)
Definition getitem_dims (d : gmap Index nat) (k : Index) : M nat :=
  match d !! k with Some v => ret v | None => raise KeyError end.

Section Helpers.
Context `{ufl.NodeModel}.

(** Modelled from the spec: [Transformer.reuse_if_possible], which rebuilds
    a node of the same kind with new operands and reuses the original
    object if the operands are unchanged. *)
Definition reuse_if_possible (o : Expr) (ops : list Expr) : Expr :=
  if decide (ops = operands o) then o else ufl.reconstruct o ops.

(** Modelled from the spec: [as_scalar] of ufl.tensors, the scalarize half
    of the conversion pair: a tensor [A] of rank [r > 0] becomes
    [(A[ii], ii)] for [r] new indices [ii], a scalar becomes [(A, ())]. *)
Definition as_scalar (e : Expr) : M (Expr * list Index) :=
  let* ii := indices (rank e) in
  match ii with
  | [] => ret (e, ii)
  | _ => ret (ufl._getitem e (At ∘ Idx <$> ii), ii)
  end.
End Helpers.

(** ** The visitor object *)

(** The class of the visitor with the attributes its [__init__] adds. *)
Inductive ADClass :=
| ClsForwardAD
| ClsSpatialAD (_index : IndexBase)
| ClsVariableAD (_variable : Expr)
| ClsCoefficientAD (_w _v _cd : Expr).

(** The attributes set by [ForwardAD.__init__] that a run never changes. *)
Record AD := mkAD {
  cls : ADClass;
  _spatial_dim : nat;
  _var_shape : Shape;
  _var_free_indices : list Index;
  _var_index_dimensions : gmap Index nat
}.

(** The items of a [Tuple] node (iteration and [len]). *)
Definition _items (t : Expr) : list Expr := operands t.

(** [isinstance(t, Tuple)]. *)
Definition isinstance_Tuple (t : Expr) : bool :=
  match kind t with KTuple => true | _ => false end.

(** The slices [t[:-n]] and [t[-n:]] of a tuple; [-0] is [0]. *)
Definition slice_to_neg {A} (t : list A) (n : nat) : list A :=
  match n with 0 => [] | _ => take (length t - n) t end.
Definition slice_from_neg {A} (t : list A) (n : nat) : list A :=
  match n with 0 => t | _ => drop (length t - n) t end.

(** [o.label()] of a [Variable] node: its second operand. *)
Definition label (o : Expr) : M Expr :=
  match operands o with
  | [_; l] => ret l
  | _ => raise AttributeError
  end.

(** [enumerate(l)]. *)
Definition enumerate {A} (l : list A) : list (nat * A) := zip (seq 0 (length l)) l.

(** The built-in [sum(iterable, start)]: [start + x1 + x2 + ...]. *)
Definition py_sum `{ufl.NodeModel} (l : list (option Expr)) (start : option Expr)
    : M (option Expr) :=
  foldM (fun acc x =>
           let* a := as_expr acc in
           let* b := as_expr x in
           ret (Some (a + b)%ufl)) l start.

(** The line [":"*80] of the debugging prints. *)
Definition colons : string := String.concat "" (replicate 80 ":").

(** The message of the two condition rules. *)
Definition condition_warning : string :=
  "Differentiating a conditional with a condition "
  +:+ "that depends on the differentiation variable."
  +:+ "This is probably not a good idea!".

(** The message of the index-sum rule; its line breaks are written as
    spaces. *)
Definition scope_collision_message : string :=
  "Index scope collision. Work around this by reusing indices less in different expressions. "
  +:+ "An example where this occurs is (v[i]*v[i]).dx(i) where the same index i "
  +:+ "is bound to an index sum inside the derivative .dx(i).".

(** The message of the coefficient rule of [CoefficientAD]. *)
Definition assume_zero_warning : string := "Assuming d{%s}/d{%s} = 0.".

Definition bessel_error : string :=
  "Differentiation of bessel function w.r.t. nu is not supported.".

Module ForwardAD.
Section Rules.
Context `{ufl.NodeModel} (self : AD).

(** [self.visit]: the visit method of the object the rule belongs to. *)
Variable visit : Expr → M Pair.

(** [ForwardAD.__init__].  The two assertions hold by typing: free indices
    and the keys of the index dimensions are [Index] objects.  The base
    class starts the run with an empty variable cache. *)
Definition __init__ (c : ADClass) (spatial_dim : nat) (var_shape : Shape)
    (var_free_indices : list Index) (var_index_dimensions : gmap Index nat)
    (cache : option (list (Expr * Pair))) : M AD :=
  fun w =>
    Return (mkAD c spatial_dim var_shape var_free_indices var_index_dimensions)
           (mkWorld (default [] cache) [] (index_count w) (log w)).

(** The cache hook.  It is the visit method only if it is named [visit];
    under the name [_cache_visit] nothing calls it.  After the lookup has
    missed, [c] is [None], so the comparison of the recomputed result with
    the cached one is never run. *)
Definition _cache_visit (o : Expr) : M Pair :=
  let* c := cache_get o in
  match c with
  | Some c => ret c
  | None =>
      let* r := visit o in
      cache_set o r ;;
      ret r
  end.

Definition _make_zero_diff (o : Expr) : M Expr :=
  let sh := shape o ++ _var_shape self in
  let fi := free_indices o in
  let idims := index_dimensions o in
  let* (fi, idims) :=
    match _var_free_indices self with
    | [] => ret (fi, idims)
    | _ =>
        let* i := unpack1 (_var_free_indices self) in
        if decide (idims !! i = None) then
          let fi := unique_indices (fi ++ [i]) in
          let* d := getitem_dims (_var_index_dimensions self) i in
          ret (fi, <[i := d]> idims)
        else ret (fi, idims)
    end in
  ret (Zero sh fi idims).

Definition _make_ones_diff (o : Expr) : M Expr :=
  ufl_assert (bool_decide (shape o = _var_shape self))
    "This is only used by VariableDerivative, yes?" ;;
  let sh := shape o in
  let fi := free_indices o in
  let idims := index_dimensions o in
  let* (fi, idims) :=
    match _var_free_indices self with
    | [] => ret (fi, idims)
    | _ =>
        let* i := unpack1 (_var_free_indices self) in
        if decide (idims !! i = None) then
          let fi := unique_indices (fi ++ [i]) in
          let* d := getitem_dims (_var_index_dimensions self) i in
          ret (fi, <[i := d]> idims)
        else ret (fi, idims)
    end in
  let one := IntValue 1 [] fi idims in
  match sh with
  | [] => ret one
  | _ =>
      let* (res, ind1, ind2) :=
        foldM (fun '(res, ind1, ind2) d =>
                 let* ij := indices 2 in
                 let* (i, j) := unpack2 ij in
                 let dij := ufl._getitem (Identity d) [At (Idx i); At (Idx j)] in
                 let res := match res with
                            | None => dij
                            | Some res => (res * dij)%ufl
                            end in
                 ret (Some res, ind1 ++ [i], ind2 ++ [j]))
              sh (None, [], []) in
      let allind := ind1 ++ ind2 in
      let* res := as_expr res in
      let fp := ufl.as_tensor res allind in
      match fi with
      | [] => ret fp
      | _ => ret (fp * one)%ufl
      end
  end.

(** *** Default rules *)

Definition expr (o : Expr) : M Pair :=
  error "Missing ForwardAD handler for type %s".

Definition terminal (o : Expr) : M Pair :=
  let* fp := _make_zero_diff o in
  ret (o, Some fp).

Definition variable (o : Expr) : M Pair :=
  unpack (e, l) := operands o in
  let* r := variable_cache_get l in
  match r with
  | Some r => ret r
  | None =>
      let* (e2, vp) := visit e in
      let v := reuse_if_possible o [e2; l] in
      let r := (v, vp) in
      variable_cache_set l r ;;
      ret r
  end.

(** *** Indexing and component handling *)

Definition multi_index (o : Expr) : M Pair :=
  ret (o, None).

Definition indexed (o : Expr) : M Pair :=
  unpack (A, jj) := operands o in
  let* (A2, Ap) := visit A in
  let o := reuse_if_possible o [A2; jj] in
  if is_Zero Ap then
    let* op := _make_zero_diff o in
    ret (o, Some op)
  else
    let* Ap := as_expr Ap in
    let r := (Z.of_nat (rank Ap) - Z.of_nat (length (_indices jj)))%Z in
    if decide (r ≠ 0%Z) then
      let* ii := indices (Z.to_nat r) in
      let op := ufl.Indexed Ap (Tup (_indices jj ++ (Idx <$> ii))) in
      let op := ufl.as_tensor op ii in
      ret (o, Some op)
    else
      let op := ufl.Indexed Ap (Multi jj) in
      ret (o, Some op).

Definition list_tensor (o : Expr) (ops : list Pair) : M Pair :=
  let '(ops, dops) := unzip ops in
  let o := reuse_if_possible o ops in
  let* dops := mapM as_expr dops in
  let op := ufl.ListTensor dops in
  ret (o, Some op).

Definition component_tensor (o : Expr) : M Pair :=
  unpack (A, ii) := operands o in
  let* (A, Ap) := visit A in
  let o := reuse_if_possible o [A; ii] in
  if is_Zero Ap then
    let* op := _make_zero_diff o in
    ret (o, Some op)
  else
    let* Ap := as_expr Ap in
    let* (Ap, jj) := as_scalar Ap in
    let op := ufl.ComponentTensor Ap (Tup (_indices ii ++ (Idx <$> jj))) in
    ret (o, Some op).

(** *** Algebra operators *)

Definition index_sum (o : Expr) : M Pair :=
  unpack (A, i) := operands o in
  match _var_free_indices self with
  | [] => ret tt
  | _ =>
      let* i0 := first (_indices i) in
      if decide (i0 ∈ Idx <$> _var_free_indices self) then
        error scope_collision_message
      else ret tt
  end ;;
  let* (A2, Ap) := visit A in
  let o := reuse_if_possible o [A2; i] in
  let* Ap := as_expr Ap in
  let op := ufl.IndexSum Ap (Multi i) in
  ret (o, Some op).

Definition sum (o : Expr) (ops : list Pair) : M Pair :=
  let '(ops, opsp) := unzip ops in
  let o2 := reuse_if_possible o ops in
  let* op0 := first opsp in
  let* op := py_sum (tail opsp) op0 in
  ret (o2, op).

Definition product (o : Expr) (ops : list Pair) : M Pair :=
  let* fp := _make_zero_diff o in
  let '(ops2, dops2) := unzip ops in
  let o := reuse_if_possible o ops2 in
  let* fp :=
    foldM (fun fp '(i, dop) =>
             let* dop := as_expr dop in
             let* (dop, ii) := as_scalar dop in
             let fpoperands := take i ops2 ++ [dop] ++ drop (S i) ops2 in
             let p := ufl.Product fpoperands in
             let p := match ii with [] => p | _ => ufl.as_tensor p ii end in
             ret (fp + p)%ufl)
          (enumerate dops2) fp in
  ret (o, Some fp).

Definition division (o : Expr) (a b : Pair) : M Pair :=
  let '(f, fp) := a in
  let '(g, gp) := b in
  let o := reuse_if_possible o [f; g] in
  ufl_assert (is_ufl_scalar f) "Not expecting nonscalar nominator" ;;
  ufl_assert (is_true_ufl_scalar g) "Not expecting nonscalar denominator" ;;
  let* (so, oi) := as_scalar o in
  let* gp := as_expr gp in
  let* (sgp, gi) := as_scalar gp in
  let o_gp := (so * sgp)%ufl in
  let o_gp := match oi ++ gi with [] => o_gp | _ => ufl.as_tensor o_gp (oi ++ gi) end in
  let* fp := as_expr fp in
  let op := ((fp - o_gp) / g)%ufl in
  ret (o, Some op).

Definition power (o : Expr) (a b : Pair) : M Pair :=
  let '(f, fp) := a in
  let '(g, gp) := b in
  (if is_true_ufl_scalar f then ret tt
   else print colons ;; print "f =" ;; print "g =" ;; print colons) ;;
  ufl_assert (is_true_ufl_scalar f) "Expecting scalar expression f in f**g." ;;
  ufl_assert (is_true_ufl_scalar g) "Expecting scalar expression g in f**g." ;;
  let f_g_m1 := (f ** (g - as_ufl_int 1))%ufl in
  let* fp := as_expr fp in
  let* gp := as_expr gp in
  let op := (f_g_m1 * (fp * g + f * ufl.ln f * gp))%ufl in
  let o := (f * f_g_m1)%ufl in
  ret (o, Some op).

Definition abs (o : Expr) (a : Pair) : M Pair :=
  let '(f, fprime) := a in
  let o := reuse_if_possible o [f] in
  let* fprime := as_expr fprime in
  let oprime := (ufl.sign f * fprime)%ufl in
  ret (o, Some oprime).

(** *** Math functions *)

Definition math_function (o : Expr) (a : Pair) : M Pair :=
  match ufl.derivative_attr o with
  | Some _ =>
      let '(f, fp) := a in
      let o := reuse_if_possible o [f] in
      let* fp := as_expr fp in
      match ufl.derivative_attr o with
      | Some d => ret (o, Some (fp * d)%ufl)
      | None => raise AttributeError
      end
  | None => error "Unknown math function."
  end.

Definition sqrt (o : Expr) (a : Pair) : M Pair :=
  let '(f, fp) := a in
  let o := reuse_if_possible o [f] in
  let* fp := as_expr fp in
  let op := (fp / (as_ufl_int 2 * o))%ufl in
  ret (o, Some op).

Definition exp (o : Expr) (a : Pair) : M Pair :=
  let '(f, fp) := a in
  let o := reuse_if_possible o [f] in
  let* fp := as_expr fp in
  let op := (fp * o)%ufl in
  ret (o, Some op).

Definition ln (o : Expr) (a : Pair) : M Pair :=
  let '(f, fp) := a in
  let o := reuse_if_possible o [f] in
  ufl_assert (negb (isinstance_Zero f)) "Division by zero." ;;
  let* fp := as_expr fp in
  ret (o, Some (fp / f)%ufl).

Definition cos (o : Expr) (a : Pair) : M Pair :=
  let '(f, fp) := a in
  let o := reuse_if_possible o [f] in
  let* fp := as_expr fp in
  let op := ((- fp) * ufl.sin f)%ufl in
  ret (o, Some op).

Definition sin (o : Expr) (a : Pair) : M Pair :=
  let '(f, fp) := a in
  let o := reuse_if_possible o [f] in
  let* fp := as_expr fp in
  let op := (fp * ufl.cos f)%ufl in
  ret (o, Some op).

Definition tan (o : Expr) (a : Pair) : M Pair :=
  let '(f, fp) := a in
  let o := reuse_if_possible o [f] in
  let* fp := as_expr fp in
  let op := ((fp * as_ufl_float 2 1)
             / (ufl.cos (as_ufl_float 2 1 * f) + as_ufl_float 1 1))%ufl in
  ret (o, Some op).

Definition acos (o : Expr) (a : Pair) : M Pair :=
  let '(f, fp) := a in
  let o := reuse_if_possible o [f] in
  let* fp := as_expr fp in
  let op := ((- fp) / ufl.sqrt (as_ufl_float 1 1 - f ** as_ufl_int 2))%ufl in
  ret (o, Some op).

Definition asin (o : Expr) (a : Pair) : M Pair :=
  let '(f, fp) := a in
  let o := reuse_if_possible o [f] in
  let* fp := as_expr fp in
  let op := (fp / ufl.sqrt (as_ufl_float 1 1 - f ** as_ufl_int 2))%ufl in
  ret (o, Some op).

Definition atan (o : Expr) (a : Pair) : M Pair :=
  let '(f, fp) := a in
  let o := reuse_if_possible o [f] in
  let* fp := as_expr fp in
  let op := (fp / (as_ufl_float 1 1 + f ** as_ufl_int 2))%ufl in
  ret (o, Some op).

Definition erf (o : Expr) (a : Pair) : M Pair :=
  let '(f, fp) := a in
  let o := reuse_if_possible o [f] in
  let* fp := as_expr fp in
  let op := (fp * ((as_ufl_float 2 1 / ufl.sqrt pi)
                   * ufl.exp (- (f ** as_ufl_int 2))))%ufl in
  ret (o, Some op).

(** The guard of the four Bessel rules:
    [not (dummy is None or isinstance(dummy, Zero))]. *)
Definition nu_is_differentiated (dummy : option Expr) : bool :=
  negb (bool_decide (dummy = None) || is_Zero dummy).

Definition bessel_j (o : Expr) (nu x : Pair) : M Pair :=
  let '(nu, dummy) := nu in
  (if nu_is_differentiated dummy then error bessel_error else ret tt) ;;
  let '(f, fp) := x in
  let o := reuse_if_possible o [nu; f] in
  let op :=
    if ufl._eq_int nu 0 then (- ufl.bessel_J (as_ufl_int 1) f)%ufl
    else (as_ufl_float 1 2
          * (ufl.bessel_J (nu - as_ufl_int 1) f
             - ufl.bessel_J (nu + as_ufl_int 1) f))%ufl in
  ret (o, Some op).

Definition bessel_y (o : Expr) (nu x : Pair) : M Pair :=
  let '(nu, dummy) := nu in
  (if nu_is_differentiated dummy then error bessel_error else ret tt) ;;
  let '(f, fp) := x in
  let o := reuse_if_possible o [nu; f] in
  let op :=
    if ufl._eq_int nu 0 then (- ufl.bessel_Y (as_ufl_int 1) f)%ufl
    else (as_ufl_float 1 2
          * (ufl.bessel_Y (nu - as_ufl_int 1) f
             - ufl.bessel_Y (nu + as_ufl_int 1) f))%ufl in
  ret (o, Some op).

Definition bessel_i (o : Expr) (nu x : Pair) : M Pair :=
  let '(nu, dummy) := nu in
  (if nu_is_differentiated dummy then error bessel_error else ret tt) ;;
  let '(f, fp) := x in
  let o := reuse_if_possible o [nu; f] in
  let op :=
    if ufl._eq_int nu 0 then ufl.bessel_I (as_ufl_int 1) f
    else (as_ufl_float 1 2
          * (ufl.bessel_I (nu - as_ufl_int 1) f
             + ufl.bessel_I (nu + as_ufl_int 1) f))%ufl in
  ret (o, Some op).

Definition bessel_k (o : Expr) (nu x : Pair) : M Pair :=
  let '(nu, dummy) := nu in
  (if nu_is_differentiated dummy then error bessel_error else ret tt) ;;
  let '(f, fp) := x in
  let o := reuse_if_possible o [nu; f] in
  let op :=
    if ufl._eq_int nu 0 then (- ufl.bessel_K (as_ufl_int 1) f)%ufl
    else (as_ufl_float (-1) 2
          * (ufl.bessel_K (nu - as_ufl_int 1) f
             + ufl.bessel_K (nu + as_ufl_int 1) f))%ufl in
  ret (o, Some op).

(** *** Restrictions *)

Definition restricted (o : Expr) (a : Pair) : M Pair :=
  let '(f, fp) := a in
  let o := reuse_if_possible o [f] in
  let* fp := as_expr fp in
  if isinstance_ConstantValue fp then ret (o, Some fp)
  else ret (o, Some (ufl._restrict fp (_side o))).

(** *** Conditionals *)

Definition binary_condition (o : Expr) (l r : Pair) : M Pair :=
  let o := reuse_if_possible o [l.1; r.1] in
  (if existsb (fun op : Pair => negb (is_Zero op.2)) [l; r]
   then warning condition_warning else ret tt) ;;
  let oprime := None in
  ret (o, oprime).

Definition not_condition (o : Expr) (c : Pair) : M Pair :=
  let o := reuse_if_possible o [c.1] in
  (if negb (is_Zero c.2) then warning condition_warning else ret tt) ;;
  let oprime := None in
  ret (o, oprime).

Definition conditional (o : Expr) (c t f : Pair) : M Pair :=
  let o := reuse_if_possible o [c.1; t.1; f.1] in
  if is_Zero t.2 && is_Zero f.2 then
    let fi := free_indices o in
    let* fid := subdict (index_dimensions o) fi in
    let op := Zero (shape o) fi fid in
    ret (o, Some op)
  else
    let* tp := as_expr t.2 in
    let* fp := as_expr f.2 in
    let op := ufl.conditional c.1 tp fp in
    ret (o, Some op).

(** *** Other derivatives *)

Definition derivative (o : Expr) : M Pair :=
  error "This should never occur.".

Definition spatial_derivative (o : Expr) : M Pair :=
  unpack (f, ii) := operands o in
  let* (f, fp) := visit f in
  let o := reuse_if_possible o [f; ii] in
  let* fp := as_expr fp in
  if ufl.is_spatially_constant fp then
    let sh := shape fp in
    let fi := free_indices fp in
    let idims := index_dimensions fp in
    let* j := unpack1 (_indices ii) in
    let '(fi, idims) :=
      match j with
      | Idx j' =>
          if decide (idims !! j' = None)
          then (fi ++ [j'], index_dimensions ii ∪ idims)
          else (fi, idims)
      | FixedIndex _ => (fi, idims)
      end in
    let oprime := Zero sh fi idims in
    ret (o, Some oprime)
  else
    let oprime := ufl.SpatialDerivative fp (Multi ii) in
    ret (o, Some oprime).
End Rules.
End ForwardAD.

Module SpatialAD.
Section Rules.
Context `{ufl.NodeModel} (self : AD).

Definition __init__ (spatial_dim : nat) (index : Expr)
    (cache : option (list (Expr * Pair))) : M AD :=
  let* index := unpack1 (_indices index) in
  let '(vfi, vid) :=
    match index with
    | Idx i => ([i], {[ i := spatial_dim ]})
    | FixedIndex _ => ([], ∅)
    end in
  ForwardAD.__init__ (ClsSpatialAD index) spatial_dim [] vfi vid cache.

(** [self._index]. *)
Definition _index : M IndexBase :=
  match cls self with
  | ClsSpatialAD index => ret index
  | _ => raise AttributeError
  end.

Definition spatial_coordinate (o : Expr) : M Pair :=
  if decide (shape o = []) then ret (o, Some (IntValue 1 [] [] ∅))
  else
    let I := Identity (_spatial_dim self) in
    let* index := _index in
    let oprime := ufl._getitem I [Colon; At index] in
    ret (o, Some oprime).

Definition facet_normal : Expr → M Pair := ForwardAD.terminal self.
Definition constant : Expr → M Pair := ForwardAD.terminal self.

Definition form_argument (o : Expr) : M Pair :=
  let* index := _index in
  let oprime := ufl.SpatialDerivative o (Single index) in
  ret (o, Some oprime).
End Rules.
End SpatialAD.

Module VariableAD.
Section Rules.
Context `{ufl.NodeModel} (self : AD).
Variable visit : Expr → M Pair.

Definition __init__ (spatial_dim : nat) (var : Expr)
    (cache : option (list (Expr * Pair))) : M AD :=
  ForwardAD.__init__ (ClsVariableAD var) spatial_dim (shape var)
    (free_indices var) (index_dimensions var) cache.

(** [self._variable]. *)
Definition _variable : M Expr :=
  match cls self with
  | ClsVariableAD var => ret var
  | _ => raise AttributeError
  end.

Definition variable (o : Expr) : M Pair :=
  unpack (e, l) := operands o in
  let* c := variable_cache_get l in
  match c with
  | Some c => ret c
  | None =>
      let* lo := label o in
      let* var := _variable in
      let* lv := label var in
      let* (o, op) :=
        if decide (lo = lv) then
          let* op := ForwardAD._make_ones_diff self o in
          ret (o, Some op)
        else
          let* (e2, ep) := visit e in
          let op := ep in
          let o := if decide (e2 = e) then o else ufl.Variable_ e2 l in
          ret (o, op) in
      let c := (o, op) in
      variable_cache_set l c ;;
      ret c
  end.
End Rules.
End VariableAD.

Module CoefficientAD.
Section Rules.
Context `{ufl.NodeModel} (self : AD).
Variable visit : Expr → M Pair.

Definition __init__ (spatial_dim : nat) (coefficients arguments
    coefficient_derivatives : Expr) (cache : option (list (Expr * Pair)))
    : M AD :=
  let* self :=
    ForwardAD.__init__
      (ClsCoefficientAD coefficients arguments coefficient_derivatives)
      spatial_dim [] [] ∅ cache in
  ufl_assert (isinstance_Tuple coefficients) "Eh?" ;;
  ufl_assert (isinstance_Tuple arguments) "Eh?" ;;
  ret self.

(** [self._w], [self._v] and [self._cd]. *)
Definition _wvcd : M (Expr * Expr * Expr) :=
  match cls self with
  | ClsCoefficientAD w v cd => ret (w, v, cd)
  | _ => raise AttributeError
  end.

Definition coefficient (o : Expr) : M Pair :=
  let* (_w, _v, _cd) := _wvcd in
  debug "In CoefficientAD.coefficient:" ;;
  debug "o = %s" ;;
  debug "self._w = %s" ;;
  debug "self._v = %s" ;;
  (* find o among w *)
  match find (fun wv : Expr * Expr => bool_decide (o = wv.1))
             (zip (_items _w) (_items _v)) with
  | Some (w, v) => ret (w, Some v)
  | None =>
      (* if o is not among the coefficient derivatives, do/dw = 0 *)
      let oprimesum := Zero (shape o) [] ∅ in
      let oprimes := dict_get (ufl._data _cd) o in
      match oprimes with
      | None =>
          match ufl._data _cd with
          | [] => ret tt
          | _ => warning assume_zero_warning
          end ;;
          ret (o, Some oprimesum)
      | Some oprimes =>
          (* make sure we have a tuple to match the self._v tuple *)
          let* oprimes :=
            match oprimes with
            | Many es => ret es
            | One e =>
                let oprimes := [e] in
                ufl_assert (bool_decide (length oprimes = length (_items _v)))
                  ("Got a tuple of arguments, "
                   +:+ "expecting a matching tuple of coefficient derivatives.") ;;
                ret oprimes
            end in
          let* oprimesum :=
            foldM (fun oprimesum '(oprime, v) =>
                     let* (so, oi) := as_scalar oprime in
                     let rv := length (shape v) in
                     let oi1 := slice_to_neg oi rv in
                     let oi2 := slice_from_neg oi rv in
                     let prod := (so * ufl._getitem v (At ∘ Idx <$> oi2))%ufl in
                     match oi1 with
                     | [] => ret (oprimesum + prod)%ufl
                     | _ => ret (oprimesum + ufl.as_tensor prod oi1)%ufl
                     end)
                  (zip oprimes (_items _v)) oprimesum in
          ret (o, Some oprimesum)
      end
  end.

Definition variable (o : Expr) : M Pair :=
  unpack (e, l) := operands o in
  let* c := variable_cache_get l in
  match c with
  | Some c => ret c
  | None =>
      let* (e2, ep) := visit e in
      let op := ep in
      let o := reuse_if_possible o [e2; l] in
      let c := (o, op) in
      variable_cache_set l c ;;
      ret c
  end.
End Rules.
End CoefficientAD.

(** ** The default visit *)

(** The names of the rules that some visitor class defines. *)
Inductive Handler :=
| h_expr | h_terminal | h_variable | h_multi_index | h_indexed
| h_list_tensor | h_component_tensor | h_index_sum | h_sum | h_product
| h_division | h_power | h_abs | h_math_function
| h_sqrt | h_exp | h_ln | h_cos | h_sin | h_tan | h_acos | h_asin | h_atan
| h_erf | h_bessel_j | h_bessel_y | h_bessel_i | h_bessel_k
| h_restricted | h_binary_condition | h_not_condition | h_conditional
| h_derivative | h_spatial_derivative
| h_spatial_coordinate | h_facet_normal | h_constant | h_form_argument
| h_coefficient.

#[global] Instance Handler_eq_dec : EqDecision Handler.
Proof. solve_decision. Defined.

(** Modelled from the spec: the class hierarchy of the node model, which is
    not in the source file.  For each kind, the rule names of the class and
    of its base classes, most specific first; names that no visitor defines
    are left out, and every chain ends in [expr]. *)
Definition handler_chain (k : Kind) : list Handler :=
  match k with
  | KZero | KIntValue _ | KFloatValue _ | KIdentity _ => [h_terminal; h_expr]
  | KSpatialCoordinate => [h_spatial_coordinate; h_terminal; h_expr]
  | KFacetNormal => [h_facet_normal; h_terminal; h_expr]
  | KConstant _ => [h_constant; h_coefficient; h_form_argument; h_terminal; h_expr]
  | KCoefficient _ => [h_coefficient; h_form_argument; h_terminal; h_expr]
  | KArgument _ => [h_form_argument; h_terminal; h_expr]
  | KMultiIndex _ => [h_multi_index; h_terminal; h_expr]
  | KLabel _ | KTuple | KExprMapping => [h_terminal; h_expr]
  | KVariable => [h_variable; h_expr]
  | KIndexed => [h_indexed; h_expr]
  | KListTensor => [h_list_tensor; h_expr]
  | KComponentTensor => [h_component_tensor; h_expr]
  | KIndexSum => [h_index_sum; h_expr]
  | KSum => [h_sum; h_expr]
  | KProduct => [h_product; h_expr]
  | KDivision => [h_division; h_expr]
  | KPower => [h_power; h_expr]
  | KAbs => [h_abs; h_expr]
  | KTransposed | KOuter | KInner | KDot | KCross | KTrace
  | KDeterminant | KInverse | KDeviatoric | KCofactor => [h_expr]
  | KMathFunction _ => [h_math_function; h_expr]
  | KSqrt => [h_sqrt; h_math_function; h_expr]
  | KExp => [h_exp; h_math_function; h_expr]
  | KLn => [h_ln; h_math_function; h_expr]
  | KCos => [h_cos; h_math_function; h_expr]
  | KSin => [h_sin; h_math_function; h_expr]
  | KTan => [h_tan; h_math_function; h_expr]
  | KAcos => [h_acos; h_math_function; h_expr]
  | KAsin => [h_asin; h_math_function; h_expr]
  | KAtan => [h_atan; h_math_function; h_expr]
  | KErf => [h_erf; h_math_function; h_expr]
  | KBesselJ => [h_bessel_j; h_expr]
  | KBesselY => [h_bessel_y; h_expr]
  | KBesselI => [h_bessel_i; h_expr]
  | KBesselK => [h_bessel_k; h_expr]
  | KPositiveRestricted | KNegativeRestricted => [h_restricted; h_expr]
  | KEQ | KNE | KLE | KGE | KLT | KGT => [h_binary_condition; h_expr]
  | KNotCondition => [h_not_condition; h_expr]
  | KConditional => [h_conditional; h_expr]
  | KSpatialDerivative => [h_spatial_derivative; h_derivative; h_expr]
  | KVariableDerivative | KCoefficientDerivative => [h_derivative; h_expr]
  end.

(** The rules a visitor class has: those of [ForwardAD] and its own. *)
Definition defines (c : ADClass) (h : Handler) : bool :=
  match h with
  | h_spatial_coordinate | h_facet_normal | h_constant | h_form_argument =>
      match c with ClsSpatialAD _ => true | _ => false end
  | h_coefficient =>
      match c with ClsCoefficientAD _ _ _ => true | _ => false end
  | _ => true
  end.

(** Modelled from the spec: the handler lookup of the base visitor, which is
    not in the source file.  Dispatch is by node kind: the first rule along
    the chain of the kind that the visitor defines; [expr] is the rule of a
    kind without one. *)
Definition handler (c : ADClass) (k : Kind) : Handler :=
  default h_expr (head (filter (fun h => defines c h = true) (handler_chain k))).

(** The rule names that stand for [ForwardAD.terminal]: the rule itself and
    the two names [SpatialAD] assigns it to. *)
Definition terminal_rule (h : Handler) : bool :=
  match h with
  | h_terminal | h_facet_normal | h_constant => true
  | _ => false
  end.

(** Calling a rule on the results of the operands:
    [h(o, *map(self.visit, o.operands()))]. *)
Definition call1 (h : Pair → M Pair) (rs : list Pair) : M Pair :=
  match rs with [a] => h a | _ => raise TypeError end.
Definition call2 (h : Pair → Pair → M Pair) (rs : list Pair) : M Pair :=
  match rs with [a; b] => h a b | _ => raise TypeError end.
Definition call3 (h : Pair → Pair → Pair → M Pair) (rs : list Pair) : M Pair :=
  match rs with [a; b; c] => h a b c | _ => raise TypeError end.

(** Modelled from the spec: [Transformer.visit], the default visit of the
    base visitor, which is not in the source file.  It looks the rule of the
    node up; a rule that takes only the node is called on the node and
    visits operands itself, a rule that takes more is called on the node and
    on the results of visiting the operands in order.  No class of the source
    file overrides it: the cache hook is not installed. *)
Fixpoint visit `{ufl.NodeModel} (self : AD) (o : Expr) {struct o} : M Pair :=
  let children := mapM (visit self) (operands o) in
  match handler (cls self) (kind o) with
  | h_expr => ForwardAD.expr o
  | h_terminal => ForwardAD.terminal self o
  | h_variable =>
      match cls self with
      | ClsVariableAD _ => VariableAD.variable self (visit self) o
      | ClsCoefficientAD _ _ _ => CoefficientAD.variable (visit self) o
      | _ => ForwardAD.variable (visit self) o
      end
  | h_multi_index => ForwardAD.multi_index o
  | h_indexed => ForwardAD.indexed self (visit self) o
  | h_list_tensor => let* rs := children in ForwardAD.list_tensor o rs
  | h_component_tensor => ForwardAD.component_tensor self (visit self) o
  | h_index_sum => ForwardAD.index_sum self (visit self) o
  | h_sum => let* rs := children in ForwardAD.sum o rs
  | h_product => let* rs := children in ForwardAD.product self o rs
  | h_division => let* rs := children in call2 (ForwardAD.division o) rs
  | h_power => let* rs := children in call2 (ForwardAD.power o) rs
  | h_abs => let* rs := children in call1 (ForwardAD.abs o) rs
  | h_math_function => let* rs := children in call1 (ForwardAD.math_function o) rs
  | h_sqrt => let* rs := children in call1 (ForwardAD.sqrt o) rs
  | h_exp => let* rs := children in call1 (ForwardAD.exp o) rs
  | h_ln => let* rs := children in call1 (ForwardAD.ln o) rs
  | h_cos => let* rs := children in call1 (ForwardAD.cos o) rs
  | h_sin => let* rs := children in call1 (ForwardAD.sin o) rs
  | h_tan => let* rs := children in call1 (ForwardAD.tan o) rs
  | h_acos => let* rs := children in call1 (ForwardAD.acos o) rs
  | h_asin => let* rs := children in call1 (ForwardAD.asin o) rs
  | h_atan => let* rs := children in call1 (ForwardAD.atan o) rs
  | h_erf => let* rs := children in call1 (ForwardAD.erf o) rs
  | h_bessel_j => let* rs := children in call2 (ForwardAD.bessel_j o) rs
  | h_bessel_y => let* rs := children in call2 (ForwardAD.bessel_y o) rs
  | h_bessel_i => let* rs := children in call2 (ForwardAD.bessel_i o) rs
  | h_bessel_k => let* rs := children in call2 (ForwardAD.bessel_k o) rs
  | h_restricted => let* rs := children in call1 (ForwardAD.restricted o) rs
  | h_binary_condition =>
      let* rs := children in call2 (ForwardAD.binary_condition o) rs
  | h_not_condition => let* rs := children in call1 (ForwardAD.not_condition o) rs
  | h_conditional => let* rs := children in call3 (ForwardAD.conditional o) rs
  | h_derivative => ForwardAD.derivative o
  | h_spatial_derivative => ForwardAD.spatial_derivative (visit self) o
  | h_spatial_coordinate => SpatialAD.spatial_coordinate self o
  | h_facet_normal => SpatialAD.facet_normal self o
  | h_constant => SpatialAD.constant self o
  | h_form_argument => SpatialAD.form_argument self o
  | h_coefficient => CoefficientAD.coefficient self o
  end.

(** ** Entry points *)

Section Drivers.
Context `{ufl.NodeModel}.

Definition compute_spatial_forward_ad (expr : Expr) (dim : nat) : M (option Expr) :=
  let* (f, v) := unpack2 (operands expr) in
  let* alg := SpatialAD.__init__ dim v None in
  let* (e, ediff) := visit alg f in
  ret ediff.

Definition compute_variable_forward_ad (expr : Expr) (dim : nat) : M (option Expr) :=
  let* (f, v) := unpack2 (operands expr) in
  let* alg := VariableAD.__init__ dim v None in
  let* (e, ediff) := visit alg f in
  ret ediff.

Definition compute_coefficient_forward_ad (expr : Expr) (dim : nat)
    : M (option Expr) :=
  match operands expr with
  | [f; w; v; cd] =>
      let* alg := CoefficientAD.__init__ dim w v cd None in
      let* (e, ediff) := visit alg f in
      ret ediff
  | _ => raise ValueError
  end.

Definition forward_ad (expr : Expr) (dim : nat) : M (option Expr) :=
  match kind expr with
  | KSpatialDerivative => compute_spatial_forward_ad expr dim
  | KVariableDerivative => compute_variable_forward_ad expr dim
  | KCoefficientDerivative => compute_coefficient_forward_ad expr dim
  | _ => error "This shouldn't happen: expr is %s"
  end.
End Drivers.

(** ** A symbolic node model

    The free implementation of the interface: every operation builds the
    node it stands for, without simplification, and infers a signature from
    the operands.  It is used to run the rules on concrete expressions. *)

Module Symbolic.

Definition MultiIndex (ii : list IndexBase) (idims : gmap Index nat) : Expr :=
  Node (KMultiIndex ii) [] [] [] idims.

(** The [Index] entries of a tuple of indices. *)
Definition symbolic (ii : list IndexBase) : list Index :=
  omap (fun i => match i with Idx i => Some i | FixedIndex _ => None end) ii.

Definition multi (a : IndexArg) : Expr :=
  match a with
  | Multi ii => ii
  | Tup ii => MultiIndex ii ∅
  | Single i => MultiIndex [i] ∅
  end.

Definition unary (k : Kind) (f : Expr) : Expr :=
  Node k [f] (shape f) (free_indices f) (index_dimensions f).

Definition binary (k : Kind) (sh : Shape) (a b : Expr) : Expr :=
  Node k [a; b] sh (unique_indices (free_indices a ++ free_indices b))
    (index_dimensions a ∪ index_dimensions b).

Definition without (bound : list Index) (fi : list Index) : list Index :=
  filter (fun i => i ∉ bound) fi.

Definition indexed (A : Expr) (ii : Expr) : Expr :=
  Node KIndexed [A; ii] (drop (length (_indices ii)) (shape A))
    (unique_indices (free_indices A ++ symbolic (_indices ii)))
    (index_dimensions A ∪ index_dimensions ii).

Definition component_tensor (A : Expr) (ii : Expr) : Expr :=
  Node KComponentTensor [A; ii]
    (shape A ++ ((fun i => default 0 (index_dimensions A !! i))
                  <$> symbolic (_indices ii)))
    (without (symbolic (_indices ii)) (free_indices A))
    (index_dimensions A).

(** A subscript with slices: the axis of a slice [:] is bound by a
    component tensor over a reserved index, as the node model does with a
    new index. *)
Definition slice_index (axis : nat) : Index := 1000 + axis.

Definition subscript (axis : nat) (s : Subscript) : IndexBase :=
  match s with
  | At i => i
  | Colon => Idx (slice_index axis)
  end.

Definition slices (ss : list Subscript) : list Index :=
  omap (fun '(axis, s) =>
          match s with
          | Colon => Some (slice_index axis)
          | At _ => None
          end) (enumerate ss).

Definition getitem (A : Expr) (ss : list Subscript) : Expr :=
  let ii := imap subscript ss in
  let dims : gmap Index nat :=
    list_to_map (omap (fun '(axis, d) => Some (slice_index axis, d))
                   (enumerate (shape A))) in
  let e := Node KIndexed [A; MultiIndex ii ∅] (drop (length ss) (shape A))
             (unique_indices (free_indices A ++ symbolic ii))
             (index_dimensions A ∪ dims) in
  match slices ss with
  | [] => Node KIndexed [A; MultiIndex ii ∅] (drop (length ss) (shape A))
            (unique_indices (free_indices A ++ symbolic ii))
            (index_dimensions A)
  | kk => component_tensor e (MultiIndex (Idx <$> kk) ∅)
  end.

Fixpoint table (l : list Expr) : list (Expr * CdValue) :=
  match l with
  | k :: v :: l' =>
      (k, match kind v with KTuple => Many (operands v) | _ => One v end)
        :: table l'
  | _ => []
  end.

#[export] Instance model : ufl.NodeModel := {|
    ufl._add a b := binary KSum (shape a) a b;
    ufl._sub a b :=
      binary KSum (shape a) a (binary KProduct (shape b) (IntValue (-1) [] [] ∅) b);
    ufl._mul a b := binary KProduct (shape a ++ shape b) a b;
    ufl._div a b := binary KDivision (shape a) a b;
    ufl._pow a b := binary KPower [] a b;
    ufl._neg a := binary KProduct (shape a) (IntValue (-1) [] [] ∅) a;
    ufl._getitem := getitem;
    ufl._restrict f side :=
      unary (match side with
             | Plus => KPositiveRestricted
             | Minus => KNegativeRestricted
             end) f;
    ufl.Indexed A ii := indexed A (multi ii);
    ufl.ListTensor es :=
      Node KListTensor es (length es :: from_option shape [] (head es))
        (unique_indices (concat (free_indices <$> es))) ∅;
    ufl.ComponentTensor A ii := component_tensor A (multi ii);
    ufl.IndexSum A i :=
      Node KIndexSum [A; multi i] (shape A)
        (without (symbolic (_indices (multi i))) (free_indices A))
        (index_dimensions A);
    ufl.Product es :=
      Node KProduct es (concat (shape <$> es))
        (unique_indices (concat (free_indices <$> es))) ∅;
    ufl.SpatialDerivative f ii :=
      Node KSpatialDerivative [f; multi ii] (shape f)
        (unique_indices (free_indices f ++ symbolic (_indices (multi ii))))
        (index_dimensions f ∪ index_dimensions (multi ii));
    ufl.Variable_ e l := Node KVariable [e; l] (shape e) (free_indices e)
                          (index_dimensions e);
    ufl.as_tensor e ii := component_tensor e (MultiIndex (Idx <$> ii) ∅);
    ufl.sign := unary (KMathFunction "sign");
    ufl.sqrt := unary KSqrt;
    ufl.exp := unary KExp;
    ufl.ln := unary KLn;
    ufl.cos := unary KCos;
    ufl.sin := unary KSin;
    ufl.bessel_J nu f := binary KBesselJ (shape f) nu f;
    ufl.bessel_Y nu f := binary KBesselY (shape f) nu f;
    ufl.bessel_I nu f := binary KBesselI (shape f) nu f;
    ufl.bessel_K nu f := binary KBesselK (shape f) nu f;
    ufl.conditional c t f :=
      Node KConditional [c; t; f] (shape t) (free_indices t) (index_dimensions t);
    ufl.reconstruct o ops :=
      Node (kind o) ops (shape o) (free_indices o) (index_dimensions o);
    ufl.is_spatially_constant e :=
      isinstance_ConstantValue e
      || match kind e with KConstant _ => true | _ => false end;
    ufl.derivative_attr _ := None;
    ufl._eq_int e n :=
      match kind e with
      | KZero => bool_decide (n = 0%Z)
      | KIntValue v => bool_decide (n = v)
      | _ => false
      end;
    ufl._data cd := table (operands cd)
|}.

(** The state before a run: nothing cached, nothing logged. *)
Definition w0 : World := mkWorld [] [] 0 [].

(** Sample nodes. *)
Definition x1 : Expr := Node KSpatialCoordinate [] [] [] ∅.       (* 1D *)
Definition x2 : Expr := Node KSpatialCoordinate [] [2] [] ∅.      (* 2D *)
Definition u : Expr := Node (KCoefficient 0) [] [] [] ∅.
Definition g : Expr := Node (KCoefficient 1) [] [] [] ∅.
Definition du : Expr := Node (KArgument 0) [] [] [] ∅.
Definition one : Expr := IntValue 1 [] [] ∅.
Definition two : Expr := IntValue 2 [] [] ∅.
Definition Tuple (es : list Expr) : Expr := Node KTuple es [] [] ∅.
Definition ExprMapping (es : list Expr) : Expr := Node KExprMapping es [] [] ∅.

End Symbolic.

(** The number of operands of a condition node: two for a comparison, one
    for a negation. *)
Definition condition_arity (k : Kind) : option nat :=
  match k with
  | KEQ | KNE | KLE | KGE | KLT | KGT => Some 2
  | KNotCondition => Some 1
  | _ => None
  end.

(** ** Sample visitors and expressions *)

Module Runs.
Import Symbolic.

(** Spatial derivative with respect to the symbolic index 7 in two
    dimensions, as [SpatialAD.__init__] builds it. *)
Definition spatial_i : AD := mkAD (ClsSpatialAD (Idx 7)) 2 [] [7] {[7 := 2]}.

(** The same in one dimension, where the spatial coordinate is a scalar. *)
Definition spatial_1d : AD := mkAD (ClsSpatialAD (Idx 7)) 1 [] [7] {[7 := 1]}.

(** Spatial derivative with respect to the fixed component 0 in one
    dimension. *)
Definition spatial_0 : AD := mkAD (ClsSpatialAD (FixedIndex 0)) 1 [] [] ∅.

(** Derivative with respect to the coefficient [u] in the direction [du],
    with an empty and with a one-entry partial-derivative table. *)
Definition coefficient_empty : AD :=
  mkAD (ClsCoefficientAD (Tuple [u]) (Tuple [du]) (ExprMapping [])) 2 [] [] ∅.
Definition coefficient_table : AD :=
  mkAD (ClsCoefficientAD (Tuple [u]) (Tuple [du])
          (ExprMapping [Node (KCoefficient 2) [] [] [] ∅; one])) 2 [] [] ∅.

(** Derivative with respect to a variable that carries the two free indices
    3 and 4. *)
Definition v34 : Expr :=
  Node KVariable [Node (KCoefficient 3) [] [] [3; 4] {[3 := 2; 4 := 2]};
                  Node (KLabel 0) [] [] [] ∅]
    [] [3; 4] {[3 := 2; 4 := 2]}.
Definition variable_34 : AD :=
  mkAD (ClsVariableAD v34) 2 [] [3; 4] {[3 := 2; 4 := 2]}.

(** Sample expressions. *)
Definition lt_one_two : Expr := Node KLT [one; two] [] [] ∅.
Definition lt_u_one : Expr := Node KLT [u; one] [] [] ∅.
Definition not_lt : Expr := Node KNotCondition [lt_one_two] [] [] ∅.
Definition cond_one_two : Expr := Node KConditional [lt_one_two; one; two] [] [] ∅.
Definition x_squared : Expr := Node KPower [x1; two] [] [] ∅.
Definition ln_x : Expr := Node KLn [x1] [] [] ∅.
Definition ln_zero : Expr := Node KLn [Zero [] [] ∅] [] [] ∅.
Definition J0_u : Expr := Node KBesselJ [IntValue 0 [] [] ∅; u] [] [] ∅.
Definition u_i : Expr :=
  Node KIndexed [Node (KCoefficient 4) [] [2] [] ∅; MultiIndex [Idx 7] {[7 := 2]}]
    [] [7] {[7 := 2]}.
Definition sum_u_i : Expr :=
  Node KIndexSum [Node KProduct [u_i; u_i] [] [7] {[7 := 2]};
                  MultiIndex [Idx 7] {[7 := 2]}] [] [] ∅.

Definition x_0 : Expr := Node KIndexed [x2; MultiIndex [FixedIndex 0] ∅] [] [] ∅.
Definition sin_x_0 : Expr := Node KSin [x_0] [] [] ∅.
Definition dx0_sin_x_0 : Expr :=
  Node KSpatialDerivative [sin_x_0; MultiIndex [FixedIndex 0] ∅] [] [] ∅.
Definition v : Expr := Node KVariable [u; Node (KLabel 0) [] [] [] ∅] [] [] ∅.
Definition v_squared : Expr := Node KPower [v; two] [] [] ∅.
Definition dv_v_squared : Expr := Node KVariableDerivative [v_squared; v] [] [] ∅.

End Runs.

(** ** More sample visitors and expressions *)

Module MoreRuns.
Import Symbolic Runs.

(** Derivative with respect to the scalar variable [v]. *)
Definition variable_v : AD := mkAD (ClsVariableAD v) 2 [] [] ∅.

(** Derivative with respect to a vector variable of dimension 2. *)
Definition vec : Expr :=
  Node KVariable [Node (KCoefficient 5) [] [2] [] ∅; Node (KLabel 2) [] [] [] ∅]
    [2] [] ∅.
Definition variable_vec : AD := mkAD (ClsVariableAD vec) 2 [2] [] ∅.

(** Derivative with respect to the coefficients [u] and [g] in two
    directions, with a table that has a single expression for the
    coefficient 2. *)
Definition c2 : Expr := Node (KCoefficient 2) [] [] [] ∅.
Definition dg : Expr := Node (KArgument 1) [] [] [] ∅.
Definition coefficient_two : AD :=
  mkAD (ClsCoefficientAD (Tuple [u; g]) (Tuple [du; dg]) (ExprMapping [c2; one]))
    2 [] [] ∅.

(** The derivatives of the coefficients [u] and [g] with respect to the
    component 0 of the spatial coordinate. *)
Definition u_dx0 : Expr := ufl.SpatialDerivative u (Single (FixedIndex 0)).
Definition g_dx0 : Expr := ufl.SpatialDerivative g (Single (FixedIndex 0)).

Definition l0 : Expr := Node (KLabel 0) [] [] [] ∅.
Definition l1 : Expr := Node (KLabel 1) [] [] [] ∅.
Definition other_var : Expr := Node KVariable [g; l1] [] [] ∅.
Definition cross_u_g : Expr := Node KCross [u; g] [] [] ∅.
Definition sum_u_g : Expr := Node KSum [u; g] [] [] ∅.
Definition product_u_g : Expr := Node KProduct [u; g] [] [] ∅.
Definition quotient_u_g : Expr := Node KDivision [u; g] [] [] ∅.
Definition list_u_g : Expr := Node KListTensor [u; g] [2] [] ∅.
Definition sin_x : Expr := Node KSin [x1] [] [] ∅.
Definition u_plus : Expr := Node KPositiveRestricted [u] [] [] ∅.
Definition w4 : Expr := Node (KCoefficient 4) [] [2] [] ∅.
Definition quotient_w4_g : Expr := Node KDivision [w4; g] [2] [] ∅.
Definition dx8_one : Expr :=
  Node KSpatialDerivative [one; MultiIndex [Idx 8] {[8 := 2]}] [] [8] {[8 := 2]}.

(** A constant vector and a component of it, a component of the vector
    variable [vec] and the tensor of these components. *)
Definition cvec : Expr := Node (KConstant 6) [] [2] [] ∅.
Definition cvec_3 : Expr :=
  Node KIndexed [cvec; MultiIndex [Idx 3] {[3 := 2]}] [] [3] {[3 := 2]}.
Definition vec_5 : Expr :=
  Node KIndexed [vec; MultiIndex [Idx 5] {[5 := 2]}] [] [5] {[5 := 2]}.
Definition ct_vec : Expr :=
  Node KComponentTensor [vec_5; MultiIndex [Idx 5] {[5 := 2]}] [2] [] ∅.

(** A math function without a rule of its own, and a trace. *)
Definition erfc_u : Expr := Node (KMathFunction "erfc") [u] [] [] ∅.
Definition tr_u : Expr := Node KTrace [u] [] [] ∅.

(** Derivative with respect to the coefficient [u] in the scalar direction
    [du], with a table whose entry for the coefficient 2 is a vector. *)
Definition coefficient_vec_entry : AD :=
  mkAD (ClsCoefficientAD (Tuple [u]) (Tuple [du]) (ExprMapping [c2; w4]))
    2 [] [] ∅.

End MoreRuns.

(** The state with the node cache replaced, and a change of state applied
    to an outcome. *)
Definition with_cache (c : list (Expr * Pair)) (w : World) : World :=
  mkWorld c (_variable_cache w) (index_count w) (log w).
Definition on_world {A} (f : World → World) (r : Outcome A) : Outcome A :=
  match r with
  | Raise e => Raise e
  | Return a w => Return a (f w)
  end.

(** A computation is blind to the node cache when it neither reads nor
    writes it: run from a state with another node cache, it gives the same
    outcome and leaves that cache in place. *)
Definition cache_blind {A} (m : M A) : Prop :=
  ∀ c w, m (with_cache c w) = on_world (with_cache c) (m w).

(** ** Rules that are defined but not wired into the visitor

    The classes [UnusedADRules] and [UnimplementedADRules] are no base class
    of any visitor.  The rules [grad], [outer], [inner] and [dot] of
    [UnusedADRules] call operations of the node model that no wired rule
    uses, and are left out. *)

Module UnusedADRules.
Section Rules.
Context `{ufl.NodeModel}.

Definition _variable_derivative (o : Expr) (f v : Pair) : M Pair :=
  let '(f, fp) := f in
  let '(v, vp) := v in
  ufl_assert (is_Zero vp)
    "TODO: What happens if vp != 0, i.e. v depends the differentiation variable?" ;;
  let* fp := as_expr fp in
  let oprime := ufl.reconstruct o [fp; v] in
  ret (o, Some oprime).

Definition commute (o : Expr) (a : Pair) : M Pair :=
  let aprime := a.2 in
  let* aprime := as_expr aprime in
  ret (o, Some (ufl.reconstruct o [aprime])).

Definition transposed : Expr → Pair → M Pair := commute.
Definition trace : Expr → Pair → M Pair := commute.
Definition deviatoric : Expr → Pair → M Pair := commute.
Definition div : Expr → Pair → M Pair := commute.
Definition curl : Expr → Pair → M Pair := commute.
End Rules.
End UnusedADRules.

Module UnimplementedADRules.
Section Rules.
Context `{ufl.NodeModel}.

Definition cross (o : Expr) (a b : Pair) : M Pair :=
  error "Derivative of cross product not implemented, apply expand_compounds before AD.".

Definition determinant (o : Expr) (a : Pair) : M Pair :=
  error "Derivative of determinant not implemented, apply expand_compounds before AD.".

Definition cofactor (o : Expr) (a : Pair) : M Pair :=
  error "Derivative of cofactor not implemented, apply expand_compounds before AD.".

Definition inverse (o : Expr) (a : Pair) : M Pair :=
  let '(A, Ap) := a in
  let* Ap := as_expr Ap in
  ret (o, Some ((- o) * Ap * o)%ufl).
End Rules.
End UnimplementedADRules.

(** ** Properties of runs *)

(** The compound tensor operators, for which no visitor has a rule. *)
Definition compound_kind (k : Kind) : bool :=
  match k with
  | KTransposed | KOuter | KInner | KDot | KCross | KTrace
  | KDeterminant | KInverse | KDeviatoric | KCofactor => true
  | _ => false
  end.

(** The derivative markers. *)
Definition derivative_marker (k : Kind) : bool :=
  match k with
  | KSpatialDerivative | KVariableDerivative | KCoefficientDerivative => true
  | _ => false
  end.

(** The state a run starts from: empty caches, the counter and the log of
    the process as they are. *)
Definition fresh_run (w : World) : World :=
  mkWorld [] [] (index_count w) (log w).

(** The state after [n] new [Index] objects. *)
Definition after_indices (n : nat) (w : World) : World :=
  mkWorld (_cache w) (_variable_cache w) (index_count w + n) (log w).

(** The state after a variable has been cached under its label. *)
Definition with_variable (l : Expr) (r : Pair) (w : World) : World :=
  mkWorld (_cache w) (dict_set (_variable_cache w) l r) (index_count w) (log w).

(** The state after some records have been logged. *)
Definition logged (rs : list LogRecord) (w : World) : World :=
  mkWorld (_cache w) (_variable_cache w) (index_count w) (log w ++ rs).

(** A computation only adds to the state of the process: when it returns,
    the log has grown at its end and the counter of indices has not
    decreased. *)
Definition growing {A} (m : M A) : Prop :=
  ∀ w a w', m w = Return a w' →
    (∃ rs, log w' = log w ++ rs) ∧ (index_count w ≤ index_count w')%nat.


(** A call of the visitor from outside a rule: through the cache hook, whose
    miss runs the default visit, or through the visit method. *)
Inductive Call :=
| ByHook (o : Expr)
| ByVisit (o : Expr).

Definition call `{ufl.NodeModel} (self : AD) (c : Call) : M Pair :=
  match c with
  | ByHook o => ForwardAD._cache_visit (visit self) o
  | ByVisit o => visit self o
  end.

(** The chain-rule table of the rules that take one visited operand
    [(f, fp)] and the rebuilt node [o]: absolute value and the math
    functions other than [ln]. *)
Definition chain_rule `{ufl.NodeModel} (k : Kind) (f fp o : Expr) : option Expr :=
  match k with
  | KAbs => Some (ufl.sign f * fp)%ufl
  | KSqrt => Some (fp / (as_ufl_int 2 * o))%ufl
  | KExp => Some (fp * o)%ufl
  | KCos => Some ((- fp) * ufl.sin f)%ufl
  | KSin => Some (fp * ufl.cos f)%ufl
  | KTan =>
      Some ((fp * as_ufl_float 2 1)
            / (ufl.cos (as_ufl_float 2 1 * f) + as_ufl_float 1 1))%ufl
  | KAcos => Some ((- fp) / ufl.sqrt (as_ufl_float 1 1 - f ** as_ufl_int 2))%ufl
  | KAsin => Some (fp / ufl.sqrt (as_ufl_float 1 1 - f ** as_ufl_int 2))%ufl
  | KAtan => Some (fp / (as_ufl_float 1 1 + f ** as_ufl_int 2))%ufl
  | KErf =>
      Some (fp * ((as_ufl_float 2 1 / ufl.sqrt pi)
                  * ufl.exp (- (f ** as_ufl_int 2))))%ufl
  | _ => None
  end.

(** ** Basic facts about the monad and the helpers *)

Lemma bind_Return {A B} (m : M A) (k : A → M B) w a w' :
  m w = Return a w' → bind m k w = k a w'.
Proof. unfold bind. intros ->. reflexivity. Qed.

Lemma bind_Raise {A B} (m : M A) (k : A → M B) w e :
  m w = Raise e → bind m k w = Raise e.
Proof. unfold bind. intros ->. reflexivity. Qed.

Lemma elem_of_unique_indices_from seen l j :
  j ∈ unique_indices_from seen l ↔ j ∈ l ∧ j ∉ seen.
Proof.
  revert seen. induction l as [|i l IH]; intros seen; simpl.
  - set_solver.
  - destruct (decide (i ∈ seen)) as [Hin|Hout].
    + rewrite IH. set_solver.
    + rewrite elem_of_cons, IH. destruct (decide (j = i)); set_solver.
Qed.

Lemma elem_of_unique_indices l j : j ∈ unique_indices l ↔ j ∈ l.
Proof. unfold unique_indices. rewrite elem_of_unique_indices_from. set_solver. Qed.

Lemma dict_get_set {V} (d : list (Expr * V)) k v :
  dict_get (dict_set d k v) k = Some v.
Proof. unfold dict_set. simpl. rewrite decide_True by done. reflexivity. Qed.

(** Writing under a key leaves the entries under the other keys. *)
Lemma dict_get_set_ne {V} (d : list (Expr * V)) k k' v :
  k' ≠ k → dict_get (dict_set d k v) k' = dict_get d k'.
Proof.
  intros Hne. unfold dict_set. cbn [dict_get].
  rewrite decide_False by done.
  induction d as [|[k0 v0] d IH]; [reflexivity|].
  rewrite filter_cons. cbn [fst dict_get].
  destruct (decide (k0 ≠ k)) as [Hk|Hk].
  - cbn [dict_get]. rewrite IH. reflexivity.
  - apply dec_stable in Hk. subst k0. rewrite decide_False by done. exact IH.
Qed.

(** A node whose rule is the terminal rule is visited by that rule. *)
Lemma visit_terminal `{ufl.NodeModel} self o :
  terminal_rule (handler (cls self) (kind o)) = true →
  visit self o = ForwardAD.terminal self o.
Proof.
  destruct o as [k ops sh fi idims]. cbn [visit kind].
  destruct (handler (cls self) k); try discriminate; reflexivity.
Qed.

(** ** The signature of a zero derivative *)

Section ZeroDiff.
Context `{ufl.NodeModel}.

(** The result of [_make_zero_diff] when the differentiation variable has no
    free index. *)
Lemma make_zero_diff_no_index self o w :
  _var_free_indices self = [] →
  ForwardAD._make_zero_diff self o w =
    Return (Zero (shape o ++ _var_shape self) (free_indices o)
              (index_dimensions o)) w.
Proof. unfold ForwardAD._make_zero_diff. intros ->. reflexivity. Qed.

(** The result of [_make_zero_diff] when the differentiation variable has the
    one free index [i] of dimension [d]. *)
Lemma make_zero_diff_one_index self o w i d :
  _var_free_indices self = [i] →
  _var_index_dimensions self !! i = Some d →
  ForwardAD._make_zero_diff self o w =
    Return (if decide (index_dimensions o !! i = None)
            then Zero (shape o ++ _var_shape self)
                   (unique_indices (free_indices o ++ [i]))
                   (<[i := d]> (index_dimensions o))
            else Zero (shape o ++ _var_shape self) (free_indices o)
                   (index_dimensions o)) w.
Proof.
  unfold ForwardAD._make_zero_diff, getitem_dims, unpack1, bind, ret.
  intros -> Hd.
  destruct (decide (index_dimensions o !! i = None)); [|reflexivity].
  rewrite Hd. reflexivity.
Qed.

(** X29.  A node handled by the default terminal rule, under a
    differentiation variable with extra shape [E], at most one free index
    and a recorded dimension for it: the visit leaves the state alone and
    returns the node with a [Zero] of shape [S + E]; its free indices are
    those of the node extended by the index of the variable when that index
    is not a key of the node's index dimensions, and its index dimensions
    are those of the node extended in the same case by the dimension of
    that index. *)
Theorem terminal_zero_signature self o w :
  terminal_rule (handler (cls self) (kind o)) = true →
  (length (_var_free_indices self) ≤ 1)%nat →
  (∀ i, i ∈ _var_free_indices self →
        is_Some (_var_index_dimensions self !! i)) →
  ∃ fi idims,
    visit self o w =
      Return (o, Some (Zero (shape o ++ _var_shape self) fi idims)) w
    ∧ (∀ j, j ∈ fi ↔
            j ∈ free_indices o
            ∨ (j ∈ _var_free_indices self ∧ index_dimensions o !! j = None))
    ∧ (∀ j, idims !! j =
            match index_dimensions o !! j with
            | Some d => Some d
            | None => if decide (j ∈ _var_free_indices self)
                      then _var_index_dimensions self !! j else None
            end).
Proof.
  intros Hh Hlen Hdims. rewrite (visit_terminal _ _ Hh).
  unfold ForwardAD.terminal.
  destruct (_var_free_indices self) as [|i [|i' vfi]] eqn:Hvfi.
  - exists (free_indices o), (index_dimensions o).
    rewrite (bind_Return _ _ _ _ _ (make_zero_diff_no_index self o w Hvfi)).
    split; [reflexivity|]. split.
    + intros j. set_solver.
    + intros j. destruct (index_dimensions o !! j); [reflexivity|].
      rewrite decide_False by set_solver. reflexivity.
  - destruct (Hdims i) as [d Hd]; [set_solver|].
    rewrite (bind_Return _ _ _ _ _ (make_zero_diff_one_index self o w i d Hvfi Hd)).
    destruct (decide (index_dimensions o !! i = None)) as [Hnone|Hsome].
    + exists (unique_indices (free_indices o ++ [i])), (<[i := d]> (index_dimensions o)).
      split; [reflexivity|]. split.
      * intros j. rewrite elem_of_unique_indices, elem_of_app, !list_elem_of_singleton.
        split; [intros [?| ->]; auto|intros [?|[-> _]]; auto].
      * intros j. destruct (decide (j = i)) as [->|Hne].
        -- rewrite lookup_insert_eq, Hnone, decide_True by set_solver. done.
        -- rewrite lookup_insert_ne by done.
           destruct (index_dimensions o !! j); [reflexivity|].
           rewrite decide_False by set_solver. reflexivity.
    + exists (free_indices o), (index_dimensions o).
      split; [reflexivity|]. split.
      * intros j. rewrite list_elem_of_singleton.
        split; [auto|intros [?|[-> ?]]; [done|contradiction]].
      * intros j. destruct (index_dimensions o !! j) eqn:Hj; [reflexivity|].
        rewrite decide_False; [reflexivity|]. rewrite list_elem_of_singleton.
        intros ->. contradiction.
  - simpl in Hlen. lia.
Qed.

End ZeroDiff.

(** ** Visiting the operands *)

Lemma mapM_one {A B} (f : A → M B) a ra w w1 :
  f a w = Return ra w1 → mapM f [a] w = Return [ra] w1.
Proof. intros Ha. cbn [mapM]. unfold bind, ret. rewrite Ha. reflexivity. Qed.

Lemma mapM_two {A B} (f : A → M B) a b ra rb w w1 w2 :
  f a w = Return ra w1 → f b w1 = Return rb w2 →
  mapM f [a; b] w = Return [ra; rb] w2.
Proof.
  intros Ha Hb. cbn [mapM]. unfold bind, ret. rewrite Ha, Hb. reflexivity.
Qed.

Lemma mapM_length {A B} (f : A → M B) l rs w w1 :
  mapM f l w = Return rs w1 → length rs = length l.
Proof.
  revert rs w. induction l as [|a l IH]; intros rs w; cbn [mapM].
  - unfold ret. intros [= <- _]. reflexivity.
  - unfold bind, ret. destruct (f a w) as [e|ra w']; [discriminate|].
    destruct (mapM f l w') as [e|rs' w''] eqn:Hl; [discriminate|].
    intros [= <- <-]. simpl. f_equal. eapply IH, Hl.
Qed.

(** ** Power *)

Section Power.
Context `{ufl.NodeModel}.

Lemma visit_power self o :
  kind o = KPower →
  visit self o =
    (let* rs := mapM (visit self) (operands o) in call2 (ForwardAD.power o) rs).
Proof.
  destruct o as [k ops sh fi idims]. cbn [visit kind operands].
  intros ->. reflexivity.
Qed.

(** C5.  Visiting a power node [f**g] whose operands are visited to
    [(f, fp)] and [(g, gp)]: unless both [f] and [g] are true scalars a
    fatal assertion is raised; when both are, the derivative is
    [f**(g-1) * (fp*g + f*ln(f)*gp)] and the primal is rebuilt as
    [f * f**(g-1)] with the same [f**(g-1)]. *)
Theorem power_rule self o a b f fp g gp w w1 w2 :
  kind o = KPower →
  operands o = [a; b] →
  visit self a w = Return (f, Some fp) w1 →
  visit self b w1 = Return (g, Some gp) w2 →
  visit self o w =
    if is_true_ufl_scalar f && is_true_ufl_scalar g then
      let f_g_m1 := (f ** (g - as_ufl_int 1))%ufl in
      Return ((f * f_g_m1)%ufl,
              Some (f_g_m1 * (fp * g + f * ufl.ln f * gp))%ufl) w2
    else
      Raise (UFLException
               (if is_true_ufl_scalar f
                then "Expecting scalar expression g in f**g."
                else "Expecting scalar expression f in f**g.")).
Proof.
  intros Hk Hops Ha Hb. rewrite (visit_power _ _ Hk), Hops.
  rewrite (bind_Return _ _ _ _ _ (mapM_two _ _ _ _ _ _ _ _ Ha Hb)).
  cbn [call2]. unfold ForwardAD.power.
  destruct (is_true_ufl_scalar f), (is_true_ufl_scalar g); reflexivity.
Qed.

End Power.

(** ** Natural logarithm *)

Section Ln.
Context `{ufl.NodeModel}.

Lemma visit_ln self o :
  kind o = KLn →
  visit self o =
    (let* rs := mapM (visit self) (operands o) in call1 (ForwardAD.ln o) rs).
Proof.
  destruct o as [k ops sh fi idims]. cbn [visit kind operands].
  intros ->. reflexivity.
Qed.

(** C8.  Visiting an [ln] node whose argument is visited to [(f, fp)]: if
    the primal [f] is a [Zero] node the assertion Division by zero fails;
    otherwise the derivative is [fp/f]. *)
Theorem ln_rule self o a f fp w w1 :
  kind o = KLn →
  operands o = [a] →
  visit self a w = Return (f, Some fp) w1 →
  visit self o w =
    if isinstance_Zero f then Raise (UFLException "Division by zero.")
    else Return (reuse_if_possible o [f], Some (fp / f)%ufl) w1.
Proof.
  intros Hk Hops Ha. rewrite (visit_ln _ _ Hk), Hops.
  rewrite (bind_Return _ _ _ _ _ (mapM_one _ _ _ _ _ Ha)).
  cbn [call1]. unfold ForwardAD.ln.
  destruct (isinstance_Zero f); reflexivity.
Qed.

End Ln.

(** ** Index sums *)

Section IndexSum.
Context `{ufl.NodeModel}.

Lemma visit_index_sum self o :
  kind o = KIndexSum →
  visit self o = ForwardAD.index_sum self (visit self) o.
Proof.
  destruct o as [k ops sh fi idims]. cbn [visit kind operands].
  intros ->. reflexivity.
Qed.

(** The scope check of the rule comes first: on a collision the rule raises
    whatever the visit of the operand would do. *)
Lemma index_sum_collision self visit' o A i i0 rest w :
  operands o = [A; i] →
  _indices i = i0 :: rest →
  i0 ∈ Idx <$> _var_free_indices self →
  ForwardAD.index_sum self visit' o w = Raise (UFLException scope_collision_message).
Proof.
  intros Hops Hi Hin. unfold ForwardAD.index_sum. rewrite Hops, Hi.
  destruct (_var_free_indices self) as [|j vfi]; [set_solver|].
  cbn [first]. unfold bind, ret. rewrite decide_True by done. reflexivity.
Qed.

(** C3.  Visiting an index sum over the index [i0]: if [i0] is among the
    free indices of the differentiation variable, the index-scope-collision
    error is raised, and it is raised by the rule before it visits the
    operand (whatever visit function it is given); otherwise the operand is
    visited and the derivative is the index sum of the derivative of the
    operand over the same index. *)
Theorem index_sum_rule self o A i i0 rest w :
  kind o = KIndexSum →
  operands o = [A; i] →
  _indices i = i0 :: rest →
  visit self o w =
    (if decide (i0 ∈ Idx <$> _var_free_indices self) then
       Raise (UFLException scope_collision_message)
     else
       match visit self A w with
       | Raise e => Raise e
       | Return (A2, Some Ap) w1 =>
           Return (reuse_if_possible o [A2; i], Some (ufl.IndexSum Ap (Multi i))) w1
       | Return (A2, None) w1 => Raise NoneOperand
       end)
  ∧ (i0 ∈ Idx <$> _var_free_indices self →
     ∀ visit' : Expr → M Pair,
       ForwardAD.index_sum self visit' o w
       = Raise (UFLException scope_collision_message)).
Proof.
  intros Hk Hops Hi. split.
  - rewrite (visit_index_sum _ _ Hk).
    destruct (decide (i0 ∈ Idx <$> _var_free_indices self)) as [Hin|Hout].
    + eapply index_sum_collision; eauto.
    + unfold ForwardAD.index_sum. rewrite Hops, Hi.
      destruct (_var_free_indices self) as [|j vfi].
      * unfold bind, ret. destruct (visit self A w) as [e|[A2 [Ap|]] w1]; reflexivity.
      * cbn [first]. unfold bind, ret. rewrite decide_False by done.
        destruct (visit self A w) as [e|[A2 [Ap|]] w1]; reflexivity.
  - intros Hin visit'. eapply index_sum_collision; eauto.
Qed.

End IndexSum.

(** ** Two or more free indices on the differentiation variable *)

Section TwoIndices.
Context `{ufl.NodeModel}.

Lemma make_zero_diff_two_indices self o w :
  (2 ≤ length (_var_free_indices self))%nat →
  ForwardAD._make_zero_diff self o w = Raise ValueError.
Proof.
  unfold ForwardAD._make_zero_diff.
  destruct (_var_free_indices self) as [|i [|j vfi]]; simpl; [lia|lia|].
  reflexivity.
Qed.

(** C9.  When the differentiation variable carries two or more free
    indices, building a zero derivative fails on unpacking the tuple of free
    indices: [_make_zero_diff], the terminal rule, the product rule and the
    zero propagation of the indexing rules raise [ValueError], and so does
    [_make_ones_diff] once its shape assertion has passed, hence the
    derivative of the variable with respect to itself.  No visit of a
    terminal returns. *)
Theorem two_free_indices_unpack_error self o w :
  (2 ≤ length (_var_free_indices self))%nat →
  ForwardAD._make_zero_diff self o w = Raise ValueError
  ∧ ForwardAD.terminal self o w = Raise ValueError
  ∧ (∀ ops, ForwardAD.product self o ops w = Raise ValueError)
  ∧ (∀ visit' A jj A2 z w1,
       operands o = [A; jj] →
       visit' A w = Return (A2, Some z) w1 →
       isinstance_Zero z = true →
       ForwardAD.indexed self visit' o w = Raise ValueError
       ∧ ForwardAD.component_tensor self visit' o w = Raise ValueError)
  ∧ ForwardAD._make_ones_diff self o w =
      (if decide (shape o = _var_shape self) then Raise ValueError
       else Raise (UFLException "This is only used by VariableDerivative, yes?"))
  ∧ (∀ visit' e l var x,
       cls self = ClsVariableAD var →
       operands o = [e; l] →
       operands var = [x; l] →
       dict_get (_variable_cache w) l = None →
       shape o = _var_shape self →
       VariableAD.variable self visit' o w = Raise ValueError)
  ∧ (terminal_rule (handler (cls self) (kind o)) = true →
     visit self o w = Raise ValueError).
Proof.
  intros Hlen.
  assert (Hz : ∀ o' w', ForwardAD._make_zero_diff self o' w' = Raise ValueError)
    by (intros; by apply make_zero_diff_two_indices).
  assert (Hone : ForwardAD._make_ones_diff self o w =
      (if decide (shape o = _var_shape self) then Raise ValueError
       else Raise (UFLException "This is only used by VariableDerivative, yes?"))).
  { unfold ForwardAD._make_ones_diff, ufl_assert, error, raise, bind, ret.
    destruct (decide (shape o = _var_shape self)) as [Heq|Hne].
    - rewrite bool_decide_eq_true_2 by done.
      destruct (_var_free_indices self) as [|i [|j vfi]]; simpl in *; [lia|lia|].
      reflexivity.
    - rewrite bool_decide_eq_false_2 by done. reflexivity. }
  split; [apply Hz|]. split.
  { unfold ForwardAD.terminal. apply bind_Raise, Hz. }
  split.
  { intros ops. unfold ForwardAD.product. apply bind_Raise, Hz. }
  split.
  { intros visit' A jj A2 z w1 Hops HA Hzero. split.
    - unfold ForwardAD.indexed. rewrite Hops.
      rewrite (bind_Return _ _ _ _ _ HA). cbn [is_Zero]. rewrite Hzero.
      apply bind_Raise, Hz.
    - unfold ForwardAD.component_tensor. rewrite Hops.
      rewrite (bind_Return _ _ _ _ _ HA). cbn [is_Zero]. rewrite Hzero.
      apply bind_Raise, Hz. }
  split; [exact Hone|]. split.
  { intros visit' e l var x Hcls Hops Hvar Hmiss Hshape.
    unfold VariableAD.variable. rewrite Hops.
    unfold bind, variable_cache_get. rewrite Hmiss.
    unfold label. rewrite Hops. unfold ret, VariableAD._variable.
    rewrite Hcls. unfold ret. cbv beta iota. rewrite Hvar. cbv beta iota.
    rewrite decide_True by done.
    rewrite Hone, decide_True by done. reflexivity. }
  intros Hh. rewrite (visit_terminal _ _ Hh).
  unfold ForwardAD.terminal. apply bind_Raise, Hz.
Qed.

End TwoIndices.

(** ** Conditions and conditionals *)

Section Conditions.
Context `{ufl.NodeModel}.

Lemma binary_condition_None o l r w :
  ∃ w', ForwardAD.binary_condition o l r w
        = Return (reuse_if_possible o [l.1; r.1], None) w'.
Proof.
  unfold ForwardAD.binary_condition, bind, ret, warning, emit.
  destruct (existsb _ _); eauto.
Qed.

Lemma not_condition_None o c w :
  ∃ w', ForwardAD.not_condition o c w
        = Return (reuse_if_possible o [c.1], None) w'.
Proof.
  unfold ForwardAD.not_condition, bind, ret, warning, emit.
  destruct (negb _); eauto.
Qed.

(** The conditional rule reads only the primal of its condition operand. *)
Lemma conditional_ignores_condition_derivative o c0 d d' t f :
  ForwardAD.conditional o (c0, d) t f = ForwardAD.conditional o (c0, d') t f.
Proof. reflexivity. Qed.

(** C10.  For a comparison or a negation whose operands are visited without
    error, the visit returns [None] as the derivative component of the pair;
    and the conditional rule gives the same result whatever the derivative
    component of its condition operand is, so it never reads that [None]. *)
Theorem condition_derivative_is_None self o rs w w1 :
  condition_arity (kind o) = Some (length (operands o)) →
  mapM (visit self) (operands o) w = Return rs w1 →
  (∃ o' w2, visit self o w = Return (o', None) w2)
  ∧ (∀ cond o' d t f,
       ForwardAD.conditional cond (o', None) t f
       = ForwardAD.conditional cond (o', d) t f).
Proof.
  intros Har Hrs. split; [|intros; reflexivity].
  pose proof (mapM_length _ _ _ _ _ Hrs) as Hlen.
  destruct o as [k ops sh fi idims]. cbn [kind operands] in *.
  destruct k; try discriminate Har; injection Har as Har;
    rewrite <- Har in Hlen; cbn [visit kind operands];
    match goal with
    | |- context [handler ?c ?k] =>
        change (handler c k) with h_binary_condition
        || change (handler c k) with h_not_condition
    end; cbv beta iota; rewrite (bind_Return _ _ _ _ _ Hrs).
  1-6: destruct rs as [|l [|r [|? ?]]]; try discriminate Hlen; cbn [call2];
       edestruct binary_condition_None as [w2 ->]; eauto.
  destruct rs as [|c [|? ?]]; try discriminate Hlen; cbn [call1].
  edestruct not_condition_None as [w2 ->]; eauto.
Qed.

End Conditions.

(** ** The cache hook and the node cache *)

Lemma blind_ret {A} (a : A) : cache_blind (ret a).
Proof. intros c w. reflexivity. Qed.

Lemma blind_raise {A} e : cache_blind (@raise A e).
Proof. intros c w. reflexivity. Qed.

Lemma blind_bind {A B} (m : M A) (k : A → M B) :
  cache_blind m → (∀ a, cache_blind (k a)) → cache_blind (bind m k).
Proof.
  intros Hm Hk c w. unfold bind. rewrite Hm.
  destruct (m w) as [e|a w']; [reflexivity|]. apply Hk.
Qed.

Lemma blind_emit r : cache_blind (emit r).
Proof. intros c w. reflexivity. Qed.

Lemma blind_indices n : cache_blind (indices n).
Proof. intros c w. reflexivity. Qed.

Lemma blind_variable_cache_get l : cache_blind (variable_cache_get l).
Proof. intros c w. reflexivity. Qed.

Lemma blind_variable_cache_set l r : cache_blind (variable_cache_set l r).
Proof. intros c w. reflexivity. Qed.

Lemma blind_mapM {A B} (f : A → M B) l :
  (∀ a, a ∈ l → cache_blind (f a)) → cache_blind (mapM f l).
Proof.
  induction l as [|a l IH]; intros Hf; cbn [mapM].
  - apply blind_ret.
  - apply blind_bind; [apply Hf; set_solver|]. intros y.
    apply blind_bind; [apply IH; intros; apply Hf; set_solver|].
    intros; apply blind_ret.
Qed.

Lemma blind_foldM {A B} (f : B → A → M B) l b :
  (∀ b a, cache_blind (f b a)) → cache_blind (foldM f l b).
Proof.
  intros Hf. revert b. induction l as [|a l IH]; intros b; cbn [foldM].
  - apply blind_ret.
  - apply blind_bind; [apply Hf|]. intros; apply IH.
Qed.

Lemma blind_subdict d keys : cache_blind (subdict d keys).
Proof.
  induction keys as [|k keys IH]; cbn [subdict].
  - apply blind_ret.
  - destruct (d !! k); [|apply blind_raise].
    apply blind_bind; [apply IH|]. intros; apply blind_ret.
Qed.

(** One step through a computation built from the monad, the helpers and
    case distinctions. *)
Ltac blind_step :=
  first
    [ apply blind_ret | apply blind_raise | apply blind_emit
    | apply blind_indices | apply blind_variable_cache_get
    | apply blind_variable_cache_set | apply blind_subdict
    | apply blind_bind; [|intros ?]
    | apply blind_foldM; intros ? ?
    | apply blind_mapM; intros ? ?
    | assumption
    | match goal with
      | |- cache_blind (match ?x with _ => _ end) => destruct x
      | |- cache_blind (let (_, _) := ?x in _) => destruct x
      | |- cache_blind ((match ?x with _ => _ end) _) => destruct x; cbv beta
      | H : ∀ a, _ → cache_blind (?v a) |- cache_blind (?v _) =>
          apply H; set_solver
      | H : ∀ a, cache_blind (?v a) |- cache_blind (?v _) => apply H
      end ].

Ltac blind :=
  repeat (unfold error, ufl_assert, warning, debug, print, unpack1, unpack2,
            first, as_expr, getitem_dims, as_scalar, py_sum, label;
          blind_step).

(** Induction on a node with the property at hand for all its operands. *)
Lemma Expr_nested_ind (P : Expr → Prop) :
  (∀ k ops sh fi idims, Forall P ops → P (Node k ops sh fi idims)) →
  ∀ o, P o.
Proof.
  intros HP. fix IH 1. intros [k ops sh fi idims]. apply HP.
  induction ops as [|a ops IHops]; constructor; [apply IH|exact IHops].
Qed.

Section CacheHook.
Context `{ufl.NodeModel}.

Lemma blind_make_zero_diff self o : cache_blind (ForwardAD._make_zero_diff self o).
Proof. unfold ForwardAD._make_zero_diff. blind. Qed.

Lemma blind_make_ones_diff self o : cache_blind (ForwardAD._make_ones_diff self o).
Proof. unfold ForwardAD._make_ones_diff. blind. Qed.

(** No rule touches the node cache, so the visit does not either. *)
Lemma visit_cache_blind self o : cache_blind (visit self o).
Proof.
  induction o as [k ops sh fi idims IH] using Expr_nested_ind.
  rewrite Forall_forall in IH.
  assert (Hch : cache_blind (mapM (visit self) ops))
    by (apply blind_mapM; exact IH).
  pose proof (blind_make_zero_diff self) as Hz.
  pose proof (blind_make_ones_diff self) as Ho.
  cbn [visit kind operands].
  destruct (handler (cls self) k);
    unfold ForwardAD.expr, ForwardAD.terminal, ForwardAD.variable,
      ForwardAD.multi_index, ForwardAD.indexed, ForwardAD.list_tensor,
      ForwardAD.component_tensor, ForwardAD.index_sum, ForwardAD.sum,
      ForwardAD.product, ForwardAD.division, ForwardAD.power, ForwardAD.abs,
      ForwardAD.math_function, ForwardAD.sqrt, ForwardAD.exp, ForwardAD.ln,
      ForwardAD.cos, ForwardAD.sin, ForwardAD.tan, ForwardAD.acos,
      ForwardAD.asin, ForwardAD.atan, ForwardAD.erf, ForwardAD.bessel_j,
      ForwardAD.bessel_y, ForwardAD.bessel_i, ForwardAD.bessel_k,
      ForwardAD.restricted, ForwardAD.binary_condition,
      ForwardAD.not_condition, ForwardAD.conditional, ForwardAD.derivative,
      ForwardAD.spatial_derivative, SpatialAD.spatial_coordinate,
      SpatialAD.facet_normal, SpatialAD.constant, SpatialAD.form_argument,
      SpatialAD._index, VariableAD.variable, VariableAD._variable,
      CoefficientAD.variable, CoefficientAD.coefficient, CoefficientAD._wvcd,
      call1, call2, call3;
    cbn [operands]; blind.
Qed.

Lemma visit_preserves_cache self o w r w' :
  visit self o w = Return r w' → _cache w' = _cache w.
Proof.
  intros Hv. pose proof (visit_cache_blind self o (_cache w) w) as Hb.
  replace (with_cache (_cache w) w) with w in Hb by (by destruct w).
  rewrite Hv in Hb. cbn [on_world] in Hb. injection Hb as ->. reflexivity.
Qed.

(** A call of the hook that returns leaves its result in the node cache
    under the node. *)
Lemma cache_visit_caches (visit' : Expr → M Pair) o w r w1 :
  ForwardAD._cache_visit visit' o w = Return r w1 →
  dict_get (_cache w1) o = Some r.
Proof.
  unfold ForwardAD._cache_visit, bind, cache_get, cache_set, ret.
  destruct (dict_get (_cache w) o) as [c|] eqn:Hc.
  - intros [= <- <-]. exact Hc.
  - destruct (visit' o w) as [e|r' w']; [discriminate|].
    intros [= <- <-]. cbn [_cache]. apply dict_get_set.
Qed.

(** The hook on a node that is in the node cache returns the cached pair
    and leaves the state alone, without calling the visit function. *)
Lemma cache_visit_cached (visit' : Expr → M Pair) o w r :
  dict_get (_cache w) o = Some r →
  ForwardAD._cache_visit visit' o w = Return r w.
Proof.
  intros Hc. unfold ForwardAD._cache_visit, bind, cache_get. rewrite Hc.
  reflexivity.
Qed.

(** A call through the hook or through the visit method keeps every entry
    of the node cache: the visit does not touch the cache, and the hook
    writes only under a node whose lookup has missed. *)
Lemma call_keeps_cache_entry self c o r w a w' :
  dict_get (_cache w) o = Some r →
  call self c w = Return a w' →
  dict_get (_cache w') o = Some r.
Proof.
  intros Hc. destruct c as [o2|o2]; cbn [call].
  - unfold ForwardAD._cache_visit, bind, cache_get, cache_set, ret.
    destruct (dict_get (_cache w) o2) as [c|] eqn:Hc2.
    + intros [= _ <-]. exact Hc.
    + destruct (visit self o2 w) as [e|r2 w2] eqn:Hv; [discriminate|].
      intros [= _ <-]. cbn [_cache].
      rewrite dict_get_set_ne by congruence.
      rewrite (visit_preserves_cache _ _ _ _ _ Hv). exact Hc.
  - intros Hv. rewrite (visit_preserves_cache _ _ _ _ _ Hv). exact Hc.
Qed.

Lemma calls_keep_cache_entry self cs o r w rs w' :
  dict_get (_cache w) o = Some r →
  mapM (call self) cs w = Return rs w' →
  dict_get (_cache w') o = Some r.
Proof.
  revert w rs. induction cs as [|c cs IH]; intros w rs Hc; cbn [mapM].
  - intros [= _ <-]. exact Hc.
  - unfold bind at 1. destruct (call self c w) as [e|a w1] eqn:Hcall; [discriminate|].
    unfold bind at 1.
    destruct (mapM (call self) cs w1) as [e|as_ w2] eqn:Hrest; [discriminate|].
    intros [= _ <-].
    exact (IH _ _ (call_keeps_cache_entry _ _ _ _ _ _ _ Hc Hcall) Hrest).
Qed.

(** C2 (amended).  The cache hook [_cache_visit] memoizes: once a call on a
    node has returned, then after any further calls of the hook and of the
    visit method, on any nodes, that have returned, a call of the hook on
    the same node returns the same pair and leaves the state as it is,
    whatever the visit function would do, so no rule is evaluated again.
    The visit itself is not the hook: it is blind to the node cache, which
    it neither reads nor writes. *)
Theorem cache_visit_memoizes self o w r w1 cs rs w2 :
  ForwardAD._cache_visit (visit self) o w = Return r w1 →
  mapM (call self) cs w1 = Return rs w2 →
  (∀ visit', ForwardAD._cache_visit visit' o w2 = Return r w2)
  ∧ (∀ c w', visit self o (with_cache c w')
             = on_world (with_cache c) (visit self o w'))
  ∧ (∀ w' r' w'', visit self o w' = Return r' w'' → _cache w'' = _cache w').
Proof.
  intros Hhook Hcalls. split; [|split].
  - intros visit'. apply cache_visit_cached.
    eapply calls_keep_cache_entry; [|exact Hcalls].
    eapply cache_visit_caches, Hhook.
  - apply visit_cache_blind.
  - apply visit_preserves_cache.
Qed.
End CacheHook.

(** ** Coefficients without an entry in the table *)

Section MissingCoefficient.
Context `{ufl.NodeModel}.

Lemma find_not_among (o : Expr) (l : list (Expr * Expr)) :
  o ∉ l.*1 → find (fun wv : Expr * Expr => bool_decide (o = wv.1)) l = None.
Proof.
  induction l as [|[w v] l IH]; [reflexivity|]. cbn [fmap list_fmap find fst].
  intros Hout. rewrite bool_decide_eq_false_2 by set_solver.
  apply IH. set_solver.
Qed.

Lemma visit_coefficient self o n _w _v _cd :
  cls self = ClsCoefficientAD _w _v _cd →
  kind o = KCoefficient n →
  visit self o = CoefficientAD.coefficient self o.
Proof.
  destruct o as [k ops sh fi idims]. cbn [visit kind].
  intros -> ->. reflexivity.
Qed.

(** C7 (amended).  A coefficient visited by [CoefficientAD] that is not among
    the coefficients of the differentiation variable and has no entry in the
    partial-derivative table: the visit returns, with a [Zero] of the shape
    of the coefficient as derivative; it emits one warning when the table is
    not empty and none when the table is empty, and it changes nothing else
    but the log. *)
Theorem missing_coefficient_default self o n w _w _v _cd :
  cls self = ClsCoefficientAD _w _v _cd →
  kind o = KCoefficient n →
  o ∉ (zip (_items _w) (_items _v)).*1 →
  dict_get (ufl._data _cd) o = None →
  ∃ w',
    visit self o w = Return (o, Some (Zero (shape o) [] ∅)) w'
    ∧ warnings (log w') =
        warnings (log w)
        ++ (if decide (ufl._data _cd = []) then [] else [assume_zero_warning])
    ∧ _cache w' = _cache w
    ∧ _variable_cache w' = _variable_cache w
    ∧ index_count w' = index_count w.
Proof.
  intros Hcls Hk Hout Hmiss. rewrite (visit_coefficient _ _ _ _ _ _ Hcls Hk).
  unfold CoefficientAD.coefficient, CoefficientAD._wvcd. rewrite Hcls.
  unfold bind at 1. unfold ret at 1.
  unfold bind at 1. unfold debug at 1, emit at 1.
  unfold bind at 1. unfold debug at 1, emit at 1.
  unfold bind at 1. unfold debug at 1, emit at 1.
  unfold bind at 1. unfold debug at 1, emit at 1.
  rewrite (find_not_among _ _ Hout), Hmiss.
  destruct (ufl._data _cd) as [|kv data] eqn:Hdata.
  - eexists. split; [reflexivity|]. cbn [log _cache _variable_cache index_count].
    unfold warnings. rewrite !omap_app. cbn [omap]. rewrite !app_nil_r.
    done.
  - eexists. split; [reflexivity|]. cbn [log _cache _variable_cache index_count].
    unfold warnings. rewrite !omap_app. cbn [omap]. rewrite !app_nil_r.
    done.
Qed.

End MissingCoefficient.

(** ** Kinds without a rule and the entry point *)

Section NoRule.
Context `{ufl.NodeModel}.

(** X1.  A compound tensor operator (transposed, outer, inner, dot, cross,
    trace, determinant, inverse, deviatoric part, cofactor) has no rule in
    any visitor: visiting it raises the missing-handler error, and none of
    its operands is visited. *)
Theorem compound_operator_has_no_rule self o w :
  compound_kind (kind o) = true →
  visit self o w = Raise (UFLException "Missing ForwardAD handler for type %s").
Proof.
  destruct o as [k ops sh fi idims]. cbn [kind].
  destruct k; try discriminate; intros _; reflexivity.
Qed.

(** X2.  A variable derivative or coefficient derivative marker inside the
    expression is fatal for every visitor: the visit raises the error of
    the rule [derivative] without visiting an operand. *)
Theorem unresolved_derivative_is_fatal self o w :
  kind o = KVariableDerivative ∨ kind o = KCoefficientDerivative →
  visit self o w = Raise (UFLException "This should never occur.").
Proof.
  destruct o as [k ops sh fi idims]. cbn [kind].
  intros [-> | ->]; reflexivity.
Qed.

(** X3.  The entry point accepts derivative markers only: on any other
    expression [forward_ad] raises. *)
Theorem forward_ad_needs_a_marker expr dim w :
  derivative_marker (kind expr) = false →
  forward_ad expr dim w
  = Raise (UFLException "This shouldn't happen: expr is %s").
Proof.
  unfold forward_ad. destruct (kind expr); try discriminate; reflexivity.
Qed.

(** X4.  Every run of the entry point starts from empty caches: the outcome
    of [forward_ad] is the same as from the state with both caches
    emptied. *)
Theorem forward_ad_starts_fresh expr dim w :
  forward_ad expr dim w = forward_ad expr dim (fresh_run w).
Proof.
  unfold forward_ad, compute_spatial_forward_ad, compute_variable_forward_ad,
    compute_coefficient_forward_ad.
  destruct (kind expr); try reflexivity.
  - unfold bind, unpack2.
    destruct (operands expr) as [|f [|v [|? ?]]]; try reflexivity.
    unfold ret. unfold SpatialAD.__init__, bind, unpack1.
    destruct (_indices v) as [|[i|i] [|? ?]]; reflexivity.
  - unfold bind, unpack2.
    destruct (operands expr) as [|f [|v [|? ?]]]; try reflexivity.
  - destruct (operands expr) as [|f [|c [|v [|cd [|? ?]]]]]; reflexivity.
Qed.

End NoRule.

(** ** The log and the counter of indices only grow *)

Lemma growing_ret {A} (a : A) : growing (ret a).
Proof.
  intros w a' w' [= <- <-]. split; [exists []; by rewrite app_nil_r|lia].
Qed.

Lemma growing_raise {A} e : growing (@raise A e).
Proof. intros w a w' [=]. Qed.

Lemma growing_bind {A B} (m : M A) (k : A → M B) :
  growing m → (∀ a, growing (k a)) → growing (bind m k).
Proof.
  intros Hm Hk w b w'. unfold bind.
  destruct (m w) as [e|a w1] eqn:Hmw; [discriminate|]. intros Hkw.
  destruct (Hm _ _ _ Hmw) as [[rs1 Hl1] Hc1].
  destruct (Hk _ _ _ _ Hkw) as [[rs2 Hl2] Hc2].
  split; [exists (rs1 ++ rs2); by rewrite Hl2, Hl1, app_assoc|lia].
Qed.

Lemma growing_emit r : growing (emit r).
Proof. intros w a w' [= _ <-]. cbn. split; [by eexists|lia]. Qed.

Lemma growing_indices n : growing (indices n).
Proof.
  intros w a w' [= _ <-]. cbn. split; [exists []; by rewrite app_nil_r|lia].
Qed.

Lemma growing_variable_cache_get l : growing (variable_cache_get l).
Proof.
  intros w a w' [= _ <-]. split; [exists []; by rewrite app_nil_r|lia].
Qed.

Lemma growing_variable_cache_set l r : growing (variable_cache_set l r).
Proof.
  intros w a w' [= _ <-]. cbn. split; [exists []; by rewrite app_nil_r|lia].
Qed.

Lemma growing_mapM {A B} (f : A → M B) l :
  (∀ a, a ∈ l → growing (f a)) → growing (mapM f l).
Proof.
  induction l as [|a l IH]; intros Hf; cbn [mapM].
  - apply growing_ret.
  - apply growing_bind; [apply Hf; set_solver|]. intros y.
    apply growing_bind; [apply IH; intros; apply Hf; set_solver|].
    intros; apply growing_ret.
Qed.

Lemma growing_foldM {A B} (f : B → A → M B) l b :
  (∀ b a, growing (f b a)) → growing (foldM f l b).
Proof.
  intros Hf. revert b. induction l as [|a l IH]; intros b; cbn [foldM].
  - apply growing_ret.
  - apply growing_bind; [apply Hf|]. intros; apply IH.
Qed.

Lemma growing_subdict d keys : growing (subdict d keys).
Proof.
  induction keys as [|k keys IH]; cbn [subdict].
  - apply growing_ret.
  - destruct (d !! k); [|apply growing_raise].
    apply growing_bind; [apply IH|]. intros; apply growing_ret.
Qed.

Ltac growing_step :=
  first
    [ apply growing_ret | apply growing_raise | apply growing_emit
    | apply growing_indices | apply growing_variable_cache_get
    | apply growing_variable_cache_set | apply growing_subdict
    | apply growing_bind; [|intros ?]
    | apply growing_foldM; intros ? ?
    | apply growing_mapM; intros ? ?
    | assumption
    | match goal with
      | |- growing (match ?x with _ => _ end) => destruct x
      | |- growing (let (_, _) := ?x in _) => destruct x
      | |- growing ((match ?x with _ => _ end) _) => destruct x; cbv beta
      | H : ∀ a, _ → growing (?v a) |- growing (?v _) => apply H; set_solver
      | H : ∀ a, growing (?v a) |- growing (?v _) => apply H
      end ].

Ltac growing_all :=
  repeat (unfold error, ufl_assert, warning, debug, print, unpack1, unpack2,
            first, as_expr, getitem_dims, as_scalar, py_sum, label;
          growing_step).

Section Growing.
Context `{ufl.NodeModel}.

Lemma growing_make_zero_diff self o : growing (ForwardAD._make_zero_diff self o).
Proof. unfold ForwardAD._make_zero_diff. growing_all. Qed.

Lemma growing_make_ones_diff self o : growing (ForwardAD._make_ones_diff self o).
Proof. unfold ForwardAD._make_ones_diff. growing_all. Qed.

Lemma visit_growing self o : growing (visit self o).
Proof.
  induction o as [k ops sh fi idims IH] using Expr_nested_ind.
  rewrite Forall_forall in IH.
  assert (Hch : growing (mapM (visit self) ops))
    by (apply growing_mapM; exact IH).
  pose proof (growing_make_zero_diff self) as Hz.
  pose proof (growing_make_ones_diff self) as Ho.
  cbn [visit kind operands].
  destruct (handler (cls self) k);
    unfold ForwardAD.expr, ForwardAD.terminal, ForwardAD.variable,
      ForwardAD.multi_index, ForwardAD.indexed, ForwardAD.list_tensor,
      ForwardAD.component_tensor, ForwardAD.index_sum, ForwardAD.sum,
      ForwardAD.product, ForwardAD.division, ForwardAD.power, ForwardAD.abs,
      ForwardAD.math_function, ForwardAD.sqrt, ForwardAD.exp, ForwardAD.ln,
      ForwardAD.cos, ForwardAD.sin, ForwardAD.tan, ForwardAD.acos,
      ForwardAD.asin, ForwardAD.atan, ForwardAD.erf, ForwardAD.bessel_j,
      ForwardAD.bessel_y, ForwardAD.bessel_i, ForwardAD.bessel_k,
      ForwardAD.restricted, ForwardAD.binary_condition,
      ForwardAD.not_condition, ForwardAD.conditional, ForwardAD.derivative,
      ForwardAD.spatial_derivative, SpatialAD.spatial_coordinate,
      SpatialAD.facet_normal, SpatialAD.constant, SpatialAD.form_argument,
      SpatialAD._index, VariableAD.variable, VariableAD._variable,
      CoefficientAD.variable, CoefficientAD.coefficient, CoefficientAD._wvcd,
      call1, call2, call3;
    cbn [operands]; growing_all.
Qed.

(** X5.  A visit only adds to the state of the process: when it returns,
    the log is the log before with records appended, and the counter of
    indices has not decreased. *)
Theorem visit_only_adds self o w r w' :
  visit self o w = Return r w' →
  (∃ rs, log w' = log w ++ rs) ∧ (index_count w ≤ index_count w')%nat.
Proof. apply visit_growing. Qed.

End Growing.

(** ** Entries of the variable cache stay *)













Section Keeping.
Context `{ufl.NodeModel}.






End Keeping.

(** ** Variables and their labels *)

Section Variables.
Context `{ufl.NodeModel}.

Lemma visit_variable self o :
  kind o = KVariable →
  visit self o =
    match cls self with
    | ClsVariableAD _ => VariableAD.variable self (visit self) o
    | ClsCoefficientAD _ _ _ => CoefficientAD.variable (visit self) o
    | _ => ForwardAD.variable (visit self) o
    end.
Proof.
  destruct o as [k ops sh fi idims]. cbn [visit kind]. intros ->. reflexivity.
Qed.




(** X7.  Under [VariableAD], a scalar variable that carries the label of the
    differentiation variable and is not cached yet, with no free index on
    the differentiation variable: the derivative is [IntValue(1)] with the
    free indices of the node, the wrapped expression is not visited, and
    the pair is cached under the label. *)
Theorem scalar_variable_self_derivative self var x o e l w :
  cls self = ClsVariableAD var →
  operands var = [x; l] →
  kind o = KVariable → operands o = [e; l] →
  dict_get (_variable_cache w) l = None →
  shape o = [] → _var_shape self = [] → _var_free_indices self = [] →
  let r := (o, Some (IntValue 1 [] (free_indices o) (index_dimensions o))) in
  visit self o w = Return r (with_variable l r w).
Proof.
  intros Hcls Hvar Hk Hops Hmiss Hsh Hvsh Hvfi r.
  rewrite (visit_variable _ _ Hk), Hcls.
  unfold VariableAD.variable. rewrite Hops.
  unfold bind, variable_cache_get. rewrite Hmiss.
  unfold label. rewrite Hops. unfold ret, VariableAD._variable.
  rewrite Hcls. unfold ret. cbv beta iota. rewrite Hvar. cbv beta iota.
  rewrite decide_True by done.
  unfold ForwardAD._make_ones_diff, ufl_assert, bind, ret.
  rewrite Hsh, Hvsh, Hvfi. cbn. reflexivity.
Qed.

(** X8.  Under [VariableAD], a variable with another label than the
    differentiation variable is differentiated through the expression it
    wraps: its derivative is the derivative of that expression, the node is
    rebuilt only if the visited expression differs, and the pair is cached
    under the label. *)
Theorem other_variable_derivative self var x lv o e l w e2 ep w1 :
  cls self = ClsVariableAD var →
  operands var = [x; lv] →
  kind o = KVariable → operands o = [e; l] →
  l ≠ lv →
  dict_get (_variable_cache w) l = None →
  visit self e w = Return (e2, ep) w1 →
  let r := (if decide (e2 = e) then o else ufl.Variable_ e2 l, ep) in
  visit self o w = Return r (with_variable l r w1).
Proof.
  intros Hcls Hvar Hk Hops Hne Hmiss He r.
  rewrite (visit_variable _ _ Hk), Hcls.
  unfold VariableAD.variable. rewrite Hops.
  unfold bind, variable_cache_get. rewrite Hmiss.
  unfold label. rewrite Hops. unfold ret, VariableAD._variable.
  rewrite Hcls. unfold ret. cbv beta iota. rewrite Hvar. cbv beta iota.
  rewrite decide_False by done. rewrite He. reflexivity.
Qed.

End Variables.

(** ** New indices *)

Lemma after_indices_0 w : after_indices 0 w = w.
Proof. destruct w. unfold after_indices. cbn. f_equal. lia. Qed.

Lemma after_indices_add m n w :
  after_indices n (after_indices m w) = after_indices (m + n) w.
Proof. unfold after_indices. cbn. f_equal. lia. Qed.

Lemma indices_spec n w :
  indices n w = Return (seq (index_count w) n) (after_indices n w).
Proof. reflexivity. Qed.

(** A loop whose body takes [n] new indices in every round takes [n] times
    the number of rounds. *)
Lemma foldM_after_indices {A B} (f : B → A → M B) (n : nat) (P : B → Prop) :
  (∀ b a w, ∃ b', f b a w = Return b' (after_indices n w) ∧ P b') →
  ∀ l b w, (l = [] → P b) →
    ∃ b', foldM f l b w = Return b' (after_indices (length l * n) w) ∧ P b'.
Proof.
  intros Hf. induction l as [|a l IH]; intros b w Hb; cbn [foldM length].
  - exists b. rewrite after_indices_0. split; [reflexivity|auto].
  - destruct (Hf b a w) as (b1 & Hb1 & HP1). unfold bind. rewrite Hb1.
    destruct (IH b1 (after_indices n w)) as (b2 & Hb2 & HP2); [auto|].
    exists b2. rewrite Hb2, after_indices_add. split; [|exact HP2].
    do 2 f_equal.
Qed.

Section Ones.
Context `{ufl.NodeModel}.

(** X9.  [_make_ones_diff] returns only for a node whose shape is the shape
    of the differentiation variable, and then it has taken exactly two new
    indices per axis of that shape and changed nothing else in the state. *)
Theorem make_ones_diff_takes_two_indices_per_axis self o w r w' :
  ForwardAD._make_ones_diff self o w = Return r w' →
  shape o = _var_shape self ∧ w' = after_indices (2 * rank o) w.
Proof.
  unfold ForwardAD._make_ones_diff, ufl_assert, error, raise.
  unfold bind at 1.
  destruct (bool_decide (shape o = _var_shape self)) eqn:Hsh; [|discriminate].
  apply bool_decide_eq_true in Hsh. unfold ret at 1. unfold bind at 1.
  match goal with
  | |- context [match ?m w with _ => _ end] =>
      assert (Hpure : ∀ a w1, m w = Return a w1 → w1 = w)
  end.
  { intros a w1. unfold unpack1, getitem_dims, bind, ret, raise.
    destruct (_var_free_indices self) as [|i [|? ?]]; [| |discriminate].
    - by intros [= _ <-].
    - destruct (decide _); [|by intros [= _ <-]].
      destruct (_var_index_dimensions self !! i); [|discriminate].
      by intros [= _ <-]. }
  match goal with
  | |- context [match ?m w with _ => _ end] =>
      destruct (m w) as [e|[fi idims] w1]; [discriminate|]
  end.
  pose proof (Hpure _ _ eq_refl) as ->. clear Hpure. unfold rank.
  destruct (shape o) as [|d sh] eqn:Hso.
  - unfold ret. intros [= _ <-]. split; [exact Hsh|].
    by rewrite after_indices_0.
  - unfold bind at 1.
    match goal with
    | |- context [foldM ?f ?l0 ?b0 w] =>
        assert (Hstep : ∀ acc a w2, ∃ acc',
                   f acc a w2 = Return acc' (after_indices 2 w2)
                   ∧ is_Some acc'.1.1)
          by (intros [[res ind1] ind2] a w1; eexists; split;
              [reflexivity|by eexists]);
        destruct (foldM_after_indices f 2 (fun acc => is_Some acc.1.1)
                    Hstep l0 b0 w)
          as ([[res ind1] ind2] & Hfold & [res' Hres]); [discriminate|]
    end.
    rewrite Hfold. cbn in Hres. subst res. cbn [as_expr]. unfold bind, ret.
    replace (2 * length (d :: sh)) with (length (d :: sh) * 2) by lia.
    destruct fi; intros [= _ <-]; split; auto.
Qed.

End Ones.

(** ** Sums, products, quotients and list tensors *)

Section Algebra.
Context `{ufl.NodeModel}.

(** The visit of a node through a rule of [ForwardAD]. *)
Lemma visit_by_rule self o h :
  handler (cls self) (kind o) = h →
  match h with
  | h_sum =>
      visit self o
      = (let* rs := mapM (visit self) (operands o) in ForwardAD.sum o rs)
  | h_product =>
      visit self o
      = (let* rs := mapM (visit self) (operands o) in
         ForwardAD.product self o rs)
  | h_division =>
      visit self o
      = (let* rs := mapM (visit self) (operands o) in
         call2 (ForwardAD.division o) rs)
  | h_list_tensor =>
      visit self o
      = (let* rs := mapM (visit self) (operands o) in
         ForwardAD.list_tensor o rs)
  | _ => True
  end.
Proof.
  destruct o as [k ops sh fi idims]. cbn [visit kind operands].
  intros <-. destruct (handler (cls self) k); try exact I; reflexivity.
Qed.

(** The built-in sum of derivatives that are all expressions is their sum
    folded from the left. *)
Lemma py_sum_all_some (ds : list Expr) (d0 : Expr) w :
  py_sum (Some <$> ds) (Some d0) w = Return (Some (foldl ufl._add d0 ds)) w.
Proof.
  unfold py_sum. revert d0. induction ds as [|d ds IH]; intros d0; [reflexivity|].
  cbn [fmap list_fmap foldM foldl]. unfold bind at 1. cbn. apply IH.
Qed.

(** X10.  The derivative of a sum of operands that all have a derivative is
    the sum of the derivatives of the operands, added from the left in the
    order of the operands; the primal is rebuilt from the visited
    operands. *)
Theorem sum_rule self o rs f0 d0 ds w w1 :
  kind o = KSum →
  mapM (visit self) (operands o) w = Return ((f0, Some d0) :: rs) w1 →
  rs.*2 = Some <$> ds →
  visit self o w
  = Return (reuse_if_possible o (f0 :: rs.*1), Some (foldl ufl._add d0 ds)) w1.
Proof.
  intros Hk Hrs Hds.
  pose proof (visit_by_rule self o h_sum) as Hv. cbv beta iota in Hv.
  rewrite Hv by (destruct o; cbn in Hk; subst; reflexivity).
  rewrite (bind_Return _ _ _ _ _ Hrs).
  unfold ForwardAD.sum, unzip. cbn [fmap list_fmap fst snd first tail].
  unfold bind at 1. unfold ret at 1. unfold bind.
  change (list_fmap Pair (option Expr) snd rs) with (rs.*2).
  rewrite Hds, py_sum_all_some. reflexivity.
Qed.

Lemma as_scalar_rank_0 e w : rank e = 0 → as_scalar e w = Return (e, []) w.
Proof.
  intros Hr. unfold as_scalar, bind. rewrite indices_spec, Hr, after_indices_0.
  reflexivity.
Qed.

(** X11.  The product rule for two operands whose derivatives are of rank
    zero: the derivative of [f*g] is the zero derivative of the node plus
    [Product(fp, g)] plus [Product(f, gp)], and no new index is taken. *)
Theorem product_rule self o f fp g gp z w w1 :
  kind o = KProduct →
  mapM (visit self) (operands o) w = Return [(f, Some fp); (g, Some gp)] w1 →
  ForwardAD._make_zero_diff self o w1 = Return z w1 →
  rank fp = 0 → rank gp = 0 →
  visit self o w
  = Return (reuse_if_possible o [f; g],
            Some (z + ufl.Product [fp; g] + ufl.Product [f; gp])%ufl) w1.
Proof.
  intros Hk Hrs Hz Hfp Hgp.
  pose proof (visit_by_rule self o h_product) as Hv. cbv beta iota in Hv.
  rewrite Hv by (destruct o; cbn in Hk; subst; reflexivity).
  rewrite (bind_Return _ _ _ _ _ Hrs).
  unfold ForwardAD.product. rewrite (bind_Return _ _ _ _ _ Hz).
  unfold unzip, enumerate.
  cbn [fmap list_fmap fst snd length seq zip zip_with foldM as_expr].
  unfold bind, ret.
  rewrite (as_scalar_rank_0 _ _ Hfp), (as_scalar_rank_0 _ _ Hgp).
  reflexivity.
Qed.

(** X12.  The quotient rule: a numerator with a shape is a fatal assertion,
    then a denominator that is not a true scalar is one; otherwise the
    rebuilt node [o] and the derivative [gp] of the denominator are made
    scalar with [rank o] and [rank gp] new indices, their product is
    wrapped over these indices when there are any, and the derivative of
    [f/g] is [(fp - o*gp) / g]. *)
Theorem division_rule self o f fp g gp w w1 :
  kind o = KDivision →
  mapM (visit self) (operands o) w = Return [(f, Some fp); (g, Some gp)] w1 →
  let o' := reuse_if_possible o [f; g] in
  let oi := seq (index_count w1) (rank o') in
  let gi := seq (index_count w1 + rank o') (rank gp) in
  let so := match oi with [] => o' | _ => ufl._getitem o' (At ∘ Idx <$> oi) end in
  let sgp := match gi with [] => gp | _ => ufl._getitem gp (At ∘ Idx <$> gi) end in
  let o_gp := match oi ++ gi with
              | [] => (so * sgp)%ufl
              | _ => ufl.as_tensor (so * sgp)%ufl (oi ++ gi)
              end in
  visit self o w =
    if negb (is_ufl_scalar f) then
      Raise (UFLException "Not expecting nonscalar nominator")
    else if negb (is_true_ufl_scalar g) then
      Raise (UFLException "Not expecting nonscalar denominator")
    else Return (o', Some ((fp - o_gp) / g)%ufl)
           (after_indices (rank o' + rank gp) w1).
Proof.
  intros Hk Hrs o' oi gi so sgp o_gp.
  pose proof (visit_by_rule self o h_division) as Hv. cbv beta iota in Hv.
  rewrite Hv by (destruct o; cbn in Hk; subst; reflexivity).
  rewrite (bind_Return _ _ _ _ _ Hrs). cbn [call2].
  unfold ForwardAD.division, ufl_assert, error, raise.
  destruct (is_ufl_scalar f); [|reflexivity].
  destruct (is_true_ufl_scalar g); [|reflexivity].
  cbn [negb]. unfold bind at 1. unfold ret at 1. cbv beta iota.
  unfold bind at 1. unfold ret at 1. cbv beta iota.
  fold o'. unfold as_scalar, bind, as_expr, ret. rewrite indices_spec.
  assert (Hgi : indices (rank gp) (after_indices (rank o') w1)
                = Return gi (after_indices (rank o' + rank gp) w1))
    by (rewrite indices_spec, after_indices_add; reflexivity).
  subst o_gp so sgp. fold oi.
  destruct oi; rewrite Hgi; destruct gi; reflexivity.
Qed.

Lemma mapM_as_expr_some (ds : list Expr) w :
  mapM as_expr (Some <$> ds) w = Return ds w.
Proof.
  induction ds as [|d ds IH]; [reflexivity|].
  cbn [fmap list_fmap mapM as_expr]. unfold bind, ret.
  change (list_fmap Expr (option Expr) Some ds) with (Some <$> ds).
  rewrite IH. reflexivity.
Qed.

Lemma mapM_as_expr_none (ds : list (option Expr)) w :
  None ∈ ds → mapM as_expr ds w = Raise NoneOperand.
Proof.
  induction ds as [|d ds IH]; [set_solver|]. intros Hin.
  cbn [mapM]. unfold bind. destruct d as [e|]; [|reflexivity].
  cbn. rewrite IH; [reflexivity|set_solver].
Qed.

(** X13.  The derivative of a list tensor is the list tensor of the
    derivatives of its components, in order; if a component has no
    derivative ([None]) the visit raises. *)
Theorem list_tensor_rule self o rs w w1 :
  kind o = KListTensor →
  mapM (visit self) (operands o) w = Return rs w1 →
  (∀ ds, rs.*2 = Some <$> ds →
     visit self o w
     = Return (reuse_if_possible o rs.*1, Some (ufl.ListTensor ds)) w1)
  ∧ (None ∈ rs.*2 → visit self o w = Raise NoneOperand).
Proof.
  intros Hk Hrs.
  pose proof (visit_by_rule self o h_list_tensor) as Hv. cbv beta iota in Hv.
  rewrite Hv by (destruct o; cbn in Hk; subst; reflexivity).
  rewrite (bind_Return _ _ _ _ _ Hrs). unfold ForwardAD.list_tensor, unzip.
  split.
  - intros ds Hds. unfold bind, ret. rewrite Hds, mapM_as_expr_some. reflexivity.
  - intros Hin. unfold bind. rewrite (mapM_as_expr_none _ _ Hin). reflexivity.
Qed.

End Algebra.

(** ** Rules with one visited operand, indexing and inner derivatives *)

Section Unary.
Context `{ufl.NodeModel}.

(** X14.  The chain-rule table: for an absolute value or a math function
    other than [ln] whose argument is visited to [(f, fp)], the visit
    returns the rebuilt node with the derivative the table gives:
    [sign(f)*fp], [fp/(2*o)], [fp*o], [-fp*sin(f)], [fp*cos(f)],
    [fp*2/(cos(2*f)+1)], [-fp/sqrt(1-f**2)], [fp/sqrt(1-f**2)],
    [fp/(1+f**2)] and [fp*(2/sqrt(pi)*exp(-f**2))]. *)
Theorem chain_rule_table self o a f fp d w w1 :
  operands o = [a] →
  visit self a w = Return (f, Some fp) w1 →
  chain_rule (kind o) f fp (reuse_if_possible o [f]) = Some d →
  visit self o w = Return (reuse_if_possible o [f], Some d) w1.
Proof.
  intros Hops Ha. destruct o as [k ops sh fi idims]. cbn [kind operands] in *.
  subst ops.
  destruct k; try discriminate; intros [= <-];
    cbn [visit kind operands];
    match goal with
    | |- context [handler ?c ?k] =>
        let h := eval cbv in (handler ClsForwardAD k) in
        change (handler c k) with h
    end; cbv beta iota;
    rewrite (bind_Return _ _ _ _ _ (mapM_one _ _ _ _ _ Ha)); reflexivity.
Qed.

(** X15.  Restriction commutes with differentiation: for a restricted node
    whose operand is visited to [(f, fp)], a derivative that is a constant
    value is returned as it is, and any other derivative is restricted to
    the side of the rebuilt node. *)
Theorem restricted_rule self o a f fp w w1 :
  kind o = KPositiveRestricted ∨ kind o = KNegativeRestricted →
  operands o = [a] →
  visit self a w = Return (f, Some fp) w1 →
  let o' := reuse_if_possible o [f] in
  visit self o w =
    Return (o', Some (if isinstance_ConstantValue fp then fp
                      else ufl._restrict fp (_side o'))) w1.
Proof.
  intros Hk Hops Ha o'. subst o'.
  destruct o as [k ops sh fi idims]. cbn [kind operands] in *. subst ops.
  destruct Hk as [-> | ->]; cbn [visit kind operands];
    match goal with
    | |- context [handler ?c ?k] => change (handler c k) with h_restricted
    end; cbv beta iota;
    rewrite (bind_Return _ _ _ _ _ (mapM_one _ _ _ _ _ Ha)); cbn [call1];
    unfold ForwardAD.restricted, bind, ret; cbn [as_expr]; unfold ret;
    destruct (isinstance_ConstantValue fp); reflexivity.
Qed.

(** X16.  Indexed access [A[jj]] whose operand is visited to a derivative
    [Ap] that is not a [Zero]: if the rank of [Ap] is the length of [jj],
    the derivative is [Indexed(Ap, jj)] and no index is taken; otherwise as
    many new indices [ii] are taken as the rank of [Ap] exceeds the length
    of [jj] (none if it is smaller), and the derivative is
    [as_tensor(Indexed(Ap, jj + ii), ii)]. *)
Theorem indexed_rule self o A jj A2 Ap w w1 :
  kind o = KIndexed →
  operands o = [A; jj] →
  visit self A w = Return (A2, Some Ap) w1 →
  isinstance_Zero Ap = false →
  let o' := reuse_if_possible o [A2; jj] in
  let r := rank Ap - length (_indices jj) in
  let ii := seq (index_count w1) r in
  visit self o w =
    if decide (rank Ap = length (_indices jj)) then
      Return (o', Some (ufl.Indexed Ap (Multi jj))) w1
    else
      Return (o', Some (ufl.as_tensor
                          (ufl.Indexed Ap (Tup (_indices jj ++ (Idx <$> ii))))
                          ii))
             (after_indices r w1).
Proof.
  intros Hk Hops HA Hz o' r ii. subst o' r ii.
  destruct o as [k ops sh fi idims]. cbn [kind operands] in *. subst k ops.
  cbn [visit kind operands].
  match goal with
  | |- context [handler ?c ?k] => change (handler c k) with h_indexed
  end. cbv beta iota.
  unfold ForwardAD.indexed. cbn [operands].
  rewrite (bind_Return _ _ _ _ _ HA). cbn [is_Zero]. rewrite Hz.
  unfold bind at 1. cbn [as_expr]. unfold ret at 1.
  destruct (decide (rank Ap = length (_indices jj))) as [Heq|Hne].
  - rewrite decide_False by lia. reflexivity.
  - rewrite decide_True by lia.
    unfold bind, ret. cbn.
    replace (Z.to_nat (Z.of_nat (rank Ap) - Z.of_nat (length (_indices jj))))
      with (rank Ap - length (_indices jj)) by lia.
    reflexivity.
Qed.

(** X17.  A spatial derivative with respect to [j] that has reached an
    operand visited to [(f, fp)]: if [fp] is spatially constant the
    derivative is a [Zero] of the signature of [fp], extended by [j] and the
    index dimensions of the multi-index when [j] is a symbolic index that
    the index dimensions of [fp] do not have; otherwise the spatial
    derivative is applied again to [fp]. *)
Theorem spatial_derivative_rule self o a ii j f fp w w1 :
  kind o = KSpatialDerivative →
  operands o = [a; ii] →
  _indices ii = [j] →
  visit self a w = Return (f, Some fp) w1 →
  let o' := reuse_if_possible o [f; ii] in
  visit self o w =
    Return (o',
            Some (if ufl.is_spatially_constant fp then
                    match j with
                    | Idx j' =>
                        if decide (index_dimensions fp !! j' = None)
                        then Zero (shape fp) (free_indices fp ++ [j'])
                               (index_dimensions ii ∪ index_dimensions fp)
                        else Zero (shape fp) (free_indices fp)
                               (index_dimensions fp)
                    | FixedIndex _ =>
                        Zero (shape fp) (free_indices fp) (index_dimensions fp)
                    end
                  else ufl.SpatialDerivative fp (Multi ii))) w1.
Proof.
  intros Hk Hops Hj Ha o'. subst o'.
  destruct o as [k ops sh fi idims]. cbn [kind operands] in *. subst k ops.
  cbn [visit kind operands].
  match goal with
  | |- context [handler ?c ?k] => change (handler c k) with h_spatial_derivative
  end. cbv beta iota.
  unfold ForwardAD.spatial_derivative. cbn [operands].
  rewrite (bind_Return _ _ _ _ _ Ha). unfold bind at 1. cbn [as_expr].
  unfold ret at 1. rewrite Hj. cbn [unpack1].
  destruct (ufl.is_spatially_constant fp); [|reflexivity].
  unfold bind, ret. destruct j as [j'|n]; [|reflexivity].
  destruct (decide (index_dimensions fp !! j' = None)); reflexivity.
Qed.

(** X18.  The guard of the four Bessel rules on the order operand: a rule
    raises exactly when the derivative of the order is an expression other
    than a [Zero]; with [None] or a [Zero] as that derivative the rule
    returns and leaves the state as it is. *)
Theorem bessel_order_guard o nu d x w :
  let fatal := Raise (UFLException bessel_error) in
  let rules := [ForwardAD.bessel_j; ForwardAD.bessel_y;
                ForwardAD.bessel_i; ForwardAD.bessel_k] in
  match d with
  | Some e =>
      if isinstance_Zero e
      then Forall (fun rule => ∃ r, rule o (nu, d) x w = Return r w) rules
      else Forall (fun rule => rule o (nu, d) x w = fatal) rules
  | None => Forall (fun rule => ∃ r, rule o (nu, d) x w = Return r w) rules
  end.
Proof.
  unfold ForwardAD.bessel_j, ForwardAD.bessel_y, ForwardAD.bessel_i,
    ForwardAD.bessel_k, ForwardAD.nu_is_differentiated, error, raise, bind, ret.
  destruct x as [f fp]. cbv zeta.
  destruct d as [e|]; [destruct (isinstance_Zero e) eqn:He|];
    repeat constructor; cbn; rewrite ?He; cbn; eauto.
Qed.

End Unary.

(** ** Coefficients and the visitors the constructors build *)

Section Coefficients.
Context `{ufl.NodeModel}.

Lemma find_first_match (o : Expr) (ws vs : list Expr) k vk :
  ws !! k = Some o →
  vs !! k = Some vk →
  (∀ j, (j < k)%nat → ws !! j ≠ Some o) →
  find (fun wv : Expr * Expr => bool_decide (o = wv.1)) (zip ws vs)
  = Some (o, vk).
Proof.
  revert vs k. induction ws as [|w ws IH]; intros [|v vs] k Hw Hv Hfirst;
    try (by destruct k).
  destruct k as [|k]; cbn in Hw, Hv.
  - injection Hw as ->. injection Hv as ->. cbn.
    rewrite bool_decide_eq_true_2 by done. reflexivity.
  - cbn. rewrite bool_decide_eq_false_2.
    + apply (IH vs k Hw Hv). intros j Hj. apply (Hfirst (S j)). lia.
    + intros ->. apply (Hfirst 0); [lia|reflexivity].
Qed.

(** X19.  Under [CoefficientAD], a coefficient that is among the
    coefficients of the differentiation variable, first at position [k]
    where a direction exists, has the direction at position [k] as its
    derivative; the visit logs only its four debug records and gives no
    warning. *)
Theorem coefficient_direction self o n _w _v _cd k vk w :
  cls self = ClsCoefficientAD _w _v _cd →
  kind o = KCoefficient n →
  _items _w !! k = Some o →
  _items _v !! k = Some vk →
  (∀ j, (j < k)%nat → _items _w !! j ≠ Some o) →
  visit self o w
  = Return (o, Some vk)
      (logged [Debug "In CoefficientAD.coefficient:"; Debug "o = %s";
               Debug "self._w = %s"; Debug "self._v = %s"] w).
Proof.
  intros Hcls Hk Hw Hv Hfirst.
  rewrite (visit_coefficient _ _ _ _ _ _ Hcls Hk).
  unfold CoefficientAD.coefficient, CoefficientAD._wvcd. rewrite Hcls.
  unfold bind at 1. unfold ret at 1.
  unfold bind at 1. unfold debug at 1, emit at 1.
  unfold bind at 1. unfold debug at 1, emit at 1.
  unfold bind at 1. unfold debug at 1, emit at 1.
  unfold bind at 1. unfold debug at 1, emit at 1.
  rewrite (find_first_match _ _ _ _ _ Hw Hv Hfirst).
  unfold ret, logged. cbn [log _cache _variable_cache index_count].
  rewrite <- !app_assoc. reflexivity.
Qed.

(** X20.  Under [CoefficientAD], a coefficient that is not among the
    coefficients of the differentiation variable and whose table entry is a
    single expression, not a tuple: unless there is exactly one direction,
    the visit fails on the assertion that the entry matches the tuple of
    directions. *)
Theorem single_entry_needs_single_direction self o n _w _v _cd e w :
  cls self = ClsCoefficientAD _w _v _cd →
  kind o = KCoefficient n →
  o ∉ (zip (_items _w) (_items _v)).*1 →
  dict_get (ufl._data _cd) o = Some (One e) →
  length (_items _v) ≠ 1 →
  visit self o w
  = Raise (UFLException ("Got a tuple of arguments, "
              +:+ "expecting a matching tuple of coefficient derivatives.")).
Proof.
  intros Hcls Hk Hout Hentry Hlen.
  rewrite (visit_coefficient _ _ _ _ _ _ Hcls Hk).
  unfold CoefficientAD.coefficient, CoefficientAD._wvcd. rewrite Hcls.
  unfold bind at 1. unfold ret at 1.
  unfold bind at 1. unfold debug at 1, emit at 1.
  unfold bind at 1. unfold debug at 1, emit at 1.
  unfold bind at 1. unfold debug at 1, emit at 1.
  unfold bind at 1. unfold debug at 1, emit at 1.
  rewrite (find_not_among _ _ Hout), Hentry.
  unfold bind, ufl_assert, error, raise.
  rewrite bool_decide_eq_false_2; [reflexivity|]. cbn. congruence.
Qed.

(** X21.  A visitor built by [SpatialAD.__init__] or by
    [CoefficientAD.__init__] has at most one free index on the
    differentiation variable and no extra shape, and its [_make_zero_diff]
    never raises: on every node it returns a [Zero] of the shape of the node
    and leaves the state as it is. *)
Theorem built_visitor_has_zero_diff self dim index cs args cd cache w w' :
  SpatialAD.__init__ dim index cache w = Return self w'
  ∨ CoefficientAD.__init__ dim cs args cd cache w = Return self w' →
  (length (_var_free_indices self) ≤ 1)%nat
  ∧ _var_shape self = []
  ∧ ∀ o w1, ∃ fi idims,
      ForwardAD._make_zero_diff self o w1 = Return (Zero (shape o) fi idims) w1.
Proof.
  intros [Hinit|Hinit].
  - unfold SpatialAD.__init__, unpack1, bind, ret, raise in Hinit.
    destruct (_indices index) as [|[i|n] [|? ?]]; try discriminate;
      unfold ForwardAD.__init__ in Hinit; injection Hinit as <- _.
    + split; [cbn; lia|]. split; [reflexivity|]. intros o w1.
      rewrite (make_zero_diff_one_index
                 (mkAD (ClsSpatialAD (Idx i)) dim [] [i] {[i := dim]})
                 o w1 i dim eq_refl (lookup_singleton_eq _ _)).
      cbn [_var_shape]. rewrite app_nil_r.
      destruct (decide _); eauto.
    + split; [cbn; lia|]. split; [reflexivity|]. intros o w1.
      rewrite make_zero_diff_no_index by reflexivity.
      cbn [_var_shape]. rewrite app_nil_r. eauto.
  - unfold CoefficientAD.__init__, ForwardAD.__init__, ufl_assert, error, raise,
      bind, ret in Hinit.
    destruct (isinstance_Tuple cs); [|discriminate].
    destruct (isinstance_Tuple args); [|discriminate].
    injection Hinit as <- _.
    split; [cbn; lia|]. split; [reflexivity|]. intros o w1.
    rewrite make_zero_diff_no_index by reflexivity.
    cbn [_var_shape]. rewrite app_nil_r. eauto.
Qed.

End Coefficients.

(** ** Leaves, comparisons, component tensors and rules outside the visitors *)

Section Leaves.
Context `{ufl.NodeModel}.

(** *** Warnings of comparisons *)

(** X22.  A comparison whose two operands are visited never has a
    derivative, and it warns exactly when one of the operand derivatives is
    not a [Zero]: then one warning is logged after the visits of the
    operands, and otherwise nothing. *)
Theorem comparison_warns_on_dependence self o l r w w1 :
  condition_arity (kind o) = Some 2 →
  mapM (visit self) (operands o) w = Return [l; r] w1 →
  visit self o w =
    Return (reuse_if_possible o [l.1; r.1], None)
      (if is_Zero l.2 && is_Zero r.2 then w1
       else logged [Warning condition_warning] w1).
Proof.
  intros Har Hrs. destruct o as [k ops sh fi idims]. cbn [kind operands] in *.
  destruct k; try discriminate Har; cbn [visit kind operands];
    match goal with
    | |- context [handler ?c ?k] => change (handler c k) with h_binary_condition
    end; cbv beta iota; rewrite (bind_Return _ _ _ _ _ Hrs); cbn [call2];
    unfold ForwardAD.binary_condition, bind, ret, warning, emit;
    cbn [existsb]; destruct (is_Zero l.2), (is_Zero r.2); reflexivity.
Qed.

(** *** Zero derivatives under indexing *)

(** X23.  A zero derivative passes through indexing: when the operand of an
    indexed access or of a component tensor is visited to a derivative that
    is a [Zero], the derivative of the node is the zero that
    [_make_zero_diff] builds for the rebuilt node, from the state that the
    visit of the operand left. *)
Theorem zero_propagates_through_indexing self o A ii A2 z w w1 :
  kind o = KIndexed ∨ kind o = KComponentTensor →
  operands o = [A; ii] →
  visit self A w = Return (A2, Some z) w1 →
  isinstance_Zero z = true →
  let o' := reuse_if_possible o [A2; ii] in
  visit self o w =
    match ForwardAD._make_zero_diff self o' w1 with
    | Raise e => Raise e
    | Return op w2 => Return (o', Some op) w2
    end.
Proof.
  intros Hk Hops HA Hz o'. subst o'.
  destruct o as [k ops sh fi idims]. cbn [kind operands] in *. subst ops.
  destruct Hk as [-> | ->]; cbn [visit kind operands];
    match goal with
    | |- context [handler ?c ?k] =>
        change (handler c k) with h_indexed
        || change (handler c k) with h_component_tensor
    end; cbv beta iota;
    unfold ForwardAD.indexed, ForwardAD.component_tensor; cbn [operands];
    rewrite (bind_Return _ _ _ _ _ HA); cbn [is_Zero]; rewrite Hz;
    reflexivity.
Qed.

(** X24.  A component tensor whose operand is visited to a derivative [Ap]
    that is not a [Zero]: [Ap] is made scalar with [rank Ap] new indices
    [jj], which are taken from the counter, and the derivative is the
    component tensor of that scalar over the indices of the node followed by
    [jj]. *)
Theorem component_tensor_rule self o A ii A2 Ap w w1 :
  kind o = KComponentTensor →
  operands o = [A; ii] →
  visit self A w = Return (A2, Some Ap) w1 →
  isinstance_Zero Ap = false →
  let o' := reuse_if_possible o [A2; ii] in
  let jj := seq (index_count w1) (rank Ap) in
  let sAp := match jj with
             | [] => Ap
             | _ => ufl._getitem Ap (At ∘ Idx <$> jj)
             end in
  visit self o w =
    Return (o', Some (ufl.ComponentTensor sAp (Tup (_indices ii ++ (Idx <$> jj)))))
      (after_indices (rank Ap) w1).
Proof.
  intros Hk Hops HA Hz o' jj sAp. subst o' jj sAp.
  destruct o as [k ops sh fi idims]. cbn [kind operands] in *. subst k ops.
  cbn [visit kind operands].
  match goal with
  | |- context [handler ?c ?k] => change (handler c k) with h_component_tensor
  end. cbv beta iota.
  unfold ForwardAD.component_tensor. cbn [operands].
  rewrite (bind_Return _ _ _ _ _ HA). cbn [is_Zero]. rewrite Hz.
  unfold bind at 1. cbn [as_expr]. unfold ret at 1.
  unfold as_scalar, bind. rewrite indices_spec.
  destruct (seq (index_count w1) (rank Ap)); reflexivity.
Qed.

(** *** The leaves under [SpatialAD] *)

(** X25.  The leaves under [SpatialAD]: a coefficient or an argument is
    differentiated symbolically, to its spatial derivative in the direction
    of the visitor; the spatial coordinate has the derivative 1 when it is a
    scalar and the column [I[:, index]] of the identity otherwise; a
    constant and the facet normal are treated as terminals.  The visits of
    a coefficient, an argument and the spatial coordinate leave the state
    as it is. *)
Theorem spatial_leaves self index o n w :
  cls self = ClsSpatialAD index →
  (kind o = KCoefficient n ∨ kind o = KArgument n →
   visit self o w
   = Return (o, Some (ufl.SpatialDerivative o (Single index))) w)
  ∧ (kind o = KSpatialCoordinate →
     visit self o w
     = Return (o, Some (if decide (shape o = []) then IntValue 1 [] [] ∅
                        else ufl._getitem (Identity (_spatial_dim self))
                               [Colon; At index])) w)
  ∧ (kind o = KConstant n ∨ kind o = KFacetNormal →
     visit self o w = ForwardAD.terminal self o w).
Proof.
  intros Hcls. destruct o as [k ops sh fi idims]. cbn [kind shape].
  split; [|split].
  - intros [-> | ->]; cbn [visit kind]; rewrite Hcls; cbn;
      unfold SpatialAD.form_argument, SpatialAD._index, bind, ret;
      rewrite Hcls; reflexivity.
  - intros ->. cbn [visit kind]. rewrite Hcls. cbn.
    unfold SpatialAD.spatial_coordinate, SpatialAD._index, bind, ret.
    cbn [shape]. destruct (decide (sh = [])); [reflexivity|].
    rewrite Hcls. reflexivity.
  - intros [-> | ->]; cbn [visit kind]; rewrite Hcls; reflexivity.
Qed.

(** *** A table entry against a scalar direction *)

(** X26.  Under [CoefficientAD], a coefficient that is not among the
    coefficients of the differentiation variable, with a single expression
    [e] as table entry and a single direction [v] without shape: the slice
    [oi[-0:]] is the whole list, so all [rank e] new indices [oi] are put on
    the direction, none is left for [as_tensor], and the derivative is
    [Zero(o.shape()) + so*v[oi]] where [so] is [e] made scalar with [oi];
    the indexing itself is the node model's. *)
Theorem table_entry_scalar_direction self o n _w _v _cd e v w :
  cls self = ClsCoefficientAD _w _v _cd →
  kind o = KCoefficient n →
  o ∉ (zip (_items _w) (_items _v)).*1 →
  dict_get (ufl._data _cd) o = Some (One e) →
  _items _v = [v] →
  shape v = [] →
  let oi := seq (index_count w) (rank e) in
  let so := match oi with
            | [] => e
            | _ => ufl._getitem e (At ∘ Idx <$> oi)
            end in
  visit self o w
  = Return (o, Some (Zero (shape o) [] ∅
                     + so * ufl._getitem v (At ∘ Idx <$> oi))%ufl)
      (after_indices (rank e)
         (logged [Debug "In CoefficientAD.coefficient:"; Debug "o = %s";
                  Debug "self._w = %s"; Debug "self._v = %s"] w)).
Proof.
  intros Hcls Hk Hout Hentry Hv Hsh oi so. subst oi so.
  rewrite (visit_coefficient _ _ _ _ _ _ Hcls Hk).
  unfold CoefficientAD.coefficient, CoefficientAD._wvcd. rewrite Hcls.
  unfold bind at 1. unfold ret at 1.
  unfold bind at 1. unfold debug at 1, emit at 1.
  unfold bind at 1. unfold debug at 1, emit at 1.
  unfold bind at 1. unfold debug at 1, emit at 1.
  unfold bind at 1. unfold debug at 1, emit at 1.
  rewrite (find_not_among _ _ Hout), Hentry, Hv.
  cbn [log _cache _variable_cache index_count zip zip_with foldM length].
  unfold as_scalar, bind, ret, indices, ufl_assert, logged, after_indices,
    slice_to_neg, slice_from_neg.
  cbn [log _cache _variable_cache index_count].
  rewrite bool_decide_eq_true_2 by reflexivity.
  unfold ret. cbv beta iota. cbn [foldM zip zip_with]. cbv beta iota.
  cbn [log _cache _variable_cache index_count].
  rewrite Hsh. cbn [length].
  rewrite <- !app_assoc. cbn [app].
  unfold bind, ret. cbn [log _cache _variable_cache index_count].
  destruct (seq (index_count w) (rank e)); reflexivity.
Qed.

(** *** Math functions without a rule of their own *)

(** X27.  A math function without a rule of its own, whose argument is
    visited to [(f2, fp)]: without a [derivative] attribute on the node the
    visit raises the unknown-function error, after the argument has been
    visited; with it, the derivative is [fp] times the [derivative()] of the
    rebuilt node. *)
Theorem math_function_rule self o name f f2 fp w w1 :
  kind o = KMathFunction name →
  operands o = [f] →
  visit self f w = Return (f2, Some fp) w1 →
  let o' := reuse_if_possible o [f2] in
  visit self o w =
    match ufl.derivative_attr o, ufl.derivative_attr o' with
    | None, _ => Raise (UFLException "Unknown math function.")
    | Some _, None => Raise AttributeError
    | Some _, Some d => Return (o', Some (fp * d)%ufl) w1
    end.
Proof.
  intros Hk Hops Hf o'. subst o'.
  destruct o as [k ops sh fi idims]. cbn [kind operands] in *. subst k ops.
  cbn [visit kind operands].
  match goal with
  | |- context [handler ?c ?k] => change (handler c k) with h_math_function
  end. cbv beta iota.
  rewrite (bind_Return _ _ _ _ _ (mapM_one _ _ _ _ _ Hf)). cbn [call1].
  unfold ForwardAD.math_function.
  destruct (ufl.derivative_attr (Node _ [f] sh fi idims)); [|reflexivity].
  unfold bind, as_expr, ret.
  destruct (ufl.derivative_attr _); reflexivity.
Qed.

(** *** Rules outside the visitors *)

(** X28.  The rules of [UnusedADRules] and [UnimplementedADRules] are not
    reached by any visitor: for a transposed, trace, deviatoric or inverse
    node the rules [commute] and [inverse] would return a derivative from
    the derivative of the operand, and the visit raises the missing-handler
    error all the same. *)
Theorem unwired_rules_are_not_reached self o A Ap w :
  kind o = KTransposed ∨ kind o = KTrace ∨ kind o = KDeviatoric
  ∨ kind o = KInverse →
  (visit self o w
   = Raise (UFLException "Missing ForwardAD handler for type %s"))
  ∧ UnusedADRules.commute o (A, Some Ap) w
    = Return (o, Some (ufl.reconstruct o [Ap])) w
  ∧ UnimplementedADRules.inverse o (A, Some Ap) w
    = Return (o, Some ((- o) * Ap * o)%ufl) w.
Proof.
  intros Hk. split; [|split; reflexivity].
  destruct o as [k ops sh fi idims]. cbn [kind] in Hk.
  destruct Hk as [-> | [-> | [-> | ->]]]; reflexivity.
Qed.
End Leaves.

(** ** Runs on concrete expressions *)

Import Symbolic Runs.

Example spatial_i_init :
  SpatialAD.__init__ 2 (MultiIndex [Idx 7] {[7 := 2]}) None w0
  = Return spatial_i w0.
Proof. reflexivity. Qed.

Example spatial_1d_init :
  SpatialAD.__init__ 1 (MultiIndex [Idx 7] {[7 := 1]}) None w0
  = Return spatial_1d w0.
Proof. reflexivity. Qed.

Example spatial_0_init :
  SpatialAD.__init__ 1 (MultiIndex [FixedIndex 0] ∅) None w0
  = Return spatial_0 w0.
Proof. reflexivity. Qed.

Example coefficient_empty_init :
  CoefficientAD.__init__ 2 (Tuple [u]) (Tuple [du]) (ExprMapping []) None w0
  = Return coefficient_empty w0.
Proof. reflexivity. Qed.

Example variable_34_init :
  VariableAD.__init__ 2 v34 None w0 = Return variable_34 w0.
Proof. reflexivity. Qed.

(** *** The entry point *)

(** The derivative of [sin(x[0])] with respect to the component 0 of the
    spatial coordinate in two dimensions is [I[:, 0][0] * cos(x[0])]. *)
Example forward_ad_sin :
  forward_ad dx0_sin_x_0 2 w0
  = Return (Some (ufl.Indexed
                    (ufl._getitem (Identity 2) [Colon; At (FixedIndex 0)])
                    (Multi (MultiIndex [FixedIndex 0] ∅))
                  * ufl.cos x_0)%ufl) w0.
Proof. reflexivity. Qed.

(** The derivative of [v**2] with respect to the variable [v] goes through
    the power rule with [fp = 1] and [gp = 0]. *)
Example forward_ad_square :
  forward_ad dv_v_squared 2 w0
  = Return (Some ((v ** (two - as_ufl_int 1))
                  * (IntValue 1 [] [] ∅ * two + v * ufl.ln v * Zero [] [] ∅))%ufl)
           (mkWorld [] [(Node (KLabel 0) [] [] [] ∅, (v, Some (IntValue 1 [] [] ∅)))]
              0 []).
Proof. reflexivity. Qed.

(** *** Terminals *)

(** A constant under [spatial_i] gets a [Zero] that carries the index 7. *)
Lemma terminal_zero_signature_witness :
  ∃ fi idims,
    visit spatial_i one w0
    = Return (one, Some (Zero (shape one ++ _var_shape spatial_i) fi idims)) w0
    ∧ (∀ j, j ∈ fi ↔
            j ∈ free_indices one
            ∨ (j ∈ _var_free_indices spatial_i
               ∧ index_dimensions one !! j = None))
    ∧ (∀ j, idims !! j =
            match index_dimensions one !! j with
            | Some d => Some d
            | None => if decide (j ∈ _var_free_indices spatial_i)
                      then _var_index_dimensions spatial_i !! j else None
            end).
Proof.
  apply (terminal_zero_signature spatial_i one w0).
  - reflexivity.
  - simpl. lia.
  - intros i Hi. apply list_elem_of_singleton in Hi as ->. by eexists.
Defined.

Example terminal_zero_run :
  visit spatial_i one w0 = Return (one, Some (Zero [] [7] {[7 := 2]})) w0.
Proof. reflexivity. Qed.

(** C1 (the code at the failing input).  Under the spatial derivative with
    respect to the symbolic index 7 in one dimension, the scalar spatial
    coordinate, a node with no free index, is visited to [IntValue(1)] with
    no free index, although the differentiation variable has the free index
    7.  [_make_zero_diff] on the same node gives a [Zero] that carries the
    index, and so does the column [I[:, 7]] that the same rule returns for
    the coordinate in two dimensions. *)
Lemma scalar_coordinate_drops_variable_index :
  free_indices x1 = []
  ∧ _var_free_indices spatial_1d = [7]
  ∧ visit spatial_1d x1 w0 = Return (x1, Some (IntValue 1 [] [] ∅)) w0
  ∧ free_indices (IntValue 1 [] [] ∅) = []
  ∧ ForwardAD._make_zero_diff spatial_1d x1 w0
    = Return (Zero [] [7] {[7 := 1]}) w0
  ∧ visit spatial_i x2 w0
    = Return (x2, Some (ufl._getitem (Identity 2) [Colon; At (Idx 7)])) w0
  ∧ free_indices (ufl._getitem (Identity 2) [Colon; At (Idx 7)]) = [7].
Proof. repeat split; reflexivity. Qed.

(** *** Power and logarithm *)

Lemma power_rule_witness :
  visit spatial_0 x_squared w0 =
    let f_g_m1 := (x1 ** (two - as_ufl_int 1))%ufl in
    Return ((x1 * f_g_m1)%ufl,
            Some (f_g_m1
                  * (IntValue 1 [] [] ∅ * two + x1 * ufl.ln x1 * Zero [] [] ∅))%ufl)
           w0.
Proof.
  apply (power_rule spatial_0 x_squared x1 two x1 (IntValue 1 [] [] ∅) two
           (Zero [] [] ∅) w0 w0 w0); reflexivity.
Defined.

Lemma ln_rule_witness :
  visit spatial_0 ln_x w0
  = Return (ln_x, Some (IntValue 1 [] [] ∅ / x1)%ufl) w0.
Proof.
  apply (ln_rule spatial_0 ln_x x1 x1 (IntValue 1 [] [] ∅) w0 w0); reflexivity.
Defined.

Example ln_zero_run :
  visit spatial_0 ln_zero w0 = Raise (UFLException "Division by zero.").
Proof. reflexivity. Qed.

(** *** Index sums *)

Lemma index_sum_rule_witness :
  visit spatial_i sum_u_i w0 = Raise (UFLException scope_collision_message).
Proof.
  destruct (index_sum_rule spatial_i sum_u_i
              (Node KProduct [u_i; u_i] [] [7] {[7 := 2]})
              (MultiIndex [Idx 7] {[7 := 2]}) (Idx 7) [] w0
              eq_refl eq_refl eq_refl) as [Hvisit _].
  exact Hvisit.
Defined.

(** *** Two free indices *)

Lemma two_free_indices_unpack_error_witness :
  ForwardAD._make_zero_diff variable_34 one w0 = Raise ValueError
  ∧ visit variable_34 one w0 = Raise ValueError.
Proof.
  destruct (two_free_indices_unpack_error variable_34 one w0)
    as (Hzero & _ & _ & _ & _ & _ & Hvisit).
  - simpl. lia.
  - split; [exact Hzero|]. apply Hvisit. reflexivity.
Defined.

(** *** Conditions *)

Lemma condition_derivative_is_None_witness :
  (∃ o' w2, visit spatial_i lt_u_one w0 = Return (o', None) w2)
  ∧ (∀ cond o' d t f,
       ForwardAD.conditional cond (o', None) t f
       = ForwardAD.conditional cond (o', d) t f).
Proof.
  apply (condition_derivative_is_None spatial_i lt_u_one
           [(u, Some (ufl.SpatialDerivative u (Single (Idx 7))));
            (one, Some (Zero [] [7] {[7 := 2]}))] w0 w0); reflexivity.
Defined.

(** The conditional over the comparison is differentiated although the
    derivative of its condition is [None]. *)
Example conditional_run :
  visit spatial_i (Node KConditional [lt_one_two; u; one] [] [] ∅) w0
  = Return (Node KConditional [lt_one_two; u; one] [] [] ∅,
            Some (ufl.conditional lt_one_two
                    (ufl.SpatialDerivative u (Single (Idx 7)))
                    (Zero [] [7] {[7 := 2]}))) w0.
Proof. reflexivity. Qed.

(** *** The cache hook and the visit *)

Lemma cache_visit_memoizes_witness :
  let r := (not_lt, None) in
  let z := (one, Some (Zero [] [7] {[7 := 2]})) in
  let w1 := mkWorld [(not_lt, r)] [] 0 [Warning condition_warning] in
  let w2 := mkWorld [(one, z); (not_lt, r)] [] 0
              [Warning condition_warning; Warning condition_warning] in
  ForwardAD._cache_visit (visit spatial_i) not_lt w0 = Return r w1
  ∧ mapM (call spatial_i) [ByHook one; ByVisit lt_u_one] w1
    = Return [z; (lt_u_one, None)] w2
  ∧ ∀ visit', ForwardAD._cache_visit visit' not_lt w2 = Return r w2.
Proof.
  intros r z w1 w2.
  assert (Hfirst : ForwardAD._cache_visit (visit spatial_i) not_lt w0
                   = Return r w1) by reflexivity.
  assert (Hcalls : mapM (call spatial_i) [ByHook one; ByVisit lt_u_one] w1
                   = Return [z; (lt_u_one, None)] w2) by reflexivity.
  split; [exact Hfirst|]. split; [exact Hcalls|].
  exact (proj1 (cache_visit_memoizes spatial_i not_lt w0 r w1
                  [ByHook one; ByVisit lt_u_one] _ w2 Hfirst Hcalls)).
Defined.

(** C2 (counterexample).  The visit is not memoized.  Visiting the negation
    [not (1 < 2)] twice in one run evaluates the rule of the negation twice:
    each visit emits its warning, and the node cache is empty before, between
    and after the two visits. *)
Lemma visit_is_not_memoized :
  ∃ w1 w2,
    visit spatial_i not_lt w0 = Return (not_lt, None) w1
    ∧ visit spatial_i not_lt w1 = Return (not_lt, None) w2
    ∧ warnings (log w0) = []
    ∧ warnings (log w1) = [condition_warning]
    ∧ warnings (log w2) = [condition_warning; condition_warning]
    ∧ _cache w0 = [] ∧ _cache w1 = [] ∧ _cache w2 = [].
Proof.
  exists (mkWorld [] [] 0 [Warning condition_warning]),
         (mkWorld [] [] 0 [Warning condition_warning; Warning condition_warning]).
  repeat split; reflexivity.
Qed.

(** *** Coefficients without an entry in the table *)

Lemma missing_coefficient_default_witness :
  ∃ w',
    visit coefficient_table g w0 = Return (g, Some (Zero (shape g) [] ∅)) w'
    ∧ warnings (log w') = [assume_zero_warning]
    ∧ _cache w' = [] ∧ _variable_cache w' = [] ∧ index_count w' = 0.
Proof.
  destruct (missing_coefficient_default coefficient_table g 1 w0
              (Tuple [u]) (Tuple [du])
              (ExprMapping [Node (KCoefficient 2) [] [] [] ∅; one]))
    as (w' & Hvisit & Hwarn & Hrest).
  - reflexivity.
  - reflexivity.
  - cbn. set_solver.
  - reflexivity.
  - exists w'. split; [exact Hvisit|]. split; [exact Hwarn|exact Hrest].
Defined.

(** C7 (counterexample).  With an empty partial-derivative table, the
    coefficient [g], which is not the coefficient [u] of the differentiation
    variable, is visited to a [Zero] of its shape and no warning is
    emitted. *)
Lemma missing_coefficient_empty_table_no_warning :
  ∃ w',
    visit coefficient_empty g w0 = Return (g, Some (Zero (shape g) [] ∅)) w'
    ∧ ufl._data (ExprMapping []) = []
    ∧ warnings (log w0) = []
    ∧ warnings (log w') = [].
Proof.
  exists (mkWorld [] [] 0
            [Debug "In CoefficientAD.coefficient:"; Debug "o = %s";
             Debug "self._w = %s"; Debug "self._v = %s"]).
  repeat split; reflexivity.
Qed.

(** *** Bessel functions *)

(** The four Bessel rules never read the derivative of the argument. *)
Lemma bessel_rules_ignore_argument_derivative `{ufl.NodeModel} o nu f fp fp' :
  ForwardAD.bessel_j o nu (f, fp) = ForwardAD.bessel_j o nu (f, fp')
  ∧ ForwardAD.bessel_y o nu (f, fp) = ForwardAD.bessel_y o nu (f, fp')
  ∧ ForwardAD.bessel_i o nu (f, fp) = ForwardAD.bessel_i o nu (f, fp')
  ∧ ForwardAD.bessel_k o nu (f, fp) = ForwardAD.bessel_k o nu (f, fp').
Proof. repeat split; reflexivity. Qed.

(** C4 (the code at the failing input).  Under [spatial_i] the coefficient
    [u] has the derivative [u.dx(7)], and the Bessel function [J_0(u)] is
    visited to the derivative [-J_1(u)]: the factor [u.dx(7)] is missing. *)
Lemma bessel_j_drops_chain_factor :
  visit spatial_i u w0
  = Return (u, Some (ufl.SpatialDerivative u (Single (Idx 7)))) w0
  ∧ visit spatial_i J0_u w0
    = Return (J0_u, Some (- ufl.bessel_J (as_ufl_int 1) u)%ufl) w0.
Proof. split; reflexivity. Qed.

(** *** The zero of a conditional *)

(** When both branch derivatives are [Zero], the conditional rule builds its
    [Zero] from the signature of the primal alone: the rule has no access to
    the differentiation variable. *)
Lemma conditional_zero_signature `{ufl.NodeModel} o c t f tz fz w :
  isinstance_Zero tz = true →
  isinstance_Zero fz = true →
  let o' := reuse_if_possible o [c.1; t; f] in
  ForwardAD.conditional o c (t, Some tz) (f, Some fz) w
  = match subdict (index_dimensions o') (free_indices o') w with
    | Raise e => Raise e
    | Return fid w' => Return (o', Some (Zero (shape o') (free_indices o') fid)) w'
    end.
Proof.
  intros Ht Hf. unfold ForwardAD.conditional. cbn [fst snd is_Zero].
  rewrite Ht, Hf. reflexivity.
Qed.

(** C6 (the code at the failing input).  Under [spatial_i] both branches of
    the conditional [1 < 2 ? 1 : 2] have a [Zero] derivative that carries the
    index 7; the conditional is visited to a [Zero] without that index, while
    [_make_zero_diff] on the same node gives the [Zero] with it. *)
Lemma conditional_zero_drops_variable_index :
  visit spatial_i one w0 = Return (one, Some (Zero [] [7] {[7 := 2]})) w0
  ∧ visit spatial_i two w0 = Return (two, Some (Zero [] [7] {[7 := 2]})) w0
  ∧ visit spatial_i cond_one_two w0
    = Return (cond_one_two, Some (Zero [] [] ∅)) w0
  ∧ ForwardAD._make_zero_diff spatial_i cond_one_two w0
    = Return (Zero [] [7] {[7 := 2]}) w0.
Proof. repeat split; reflexivity. Qed.

(** *** Further runs *)

Import MoreRuns.

Example variable_v_init :
  VariableAD.__init__ 2 v None w0 = Return variable_v w0.
Proof. reflexivity. Qed.

Lemma compound_operator_has_no_rule_witness :
  visit spatial_i cross_u_g w0
  = Raise (UFLException "Missing ForwardAD handler for type %s").
Proof. apply compound_operator_has_no_rule. reflexivity. Defined.

Lemma unresolved_derivative_is_fatal_witness :
  visit spatial_i dv_v_squared w0
  = Raise (UFLException "This should never occur.").
Proof. apply unresolved_derivative_is_fatal. left. reflexivity. Defined.

Lemma forward_ad_needs_a_marker_witness :
  forward_ad u 2 w0 = Raise (UFLException "This shouldn't happen: expr is %s").
Proof. apply forward_ad_needs_a_marker. reflexivity. Defined.

Lemma visit_only_adds_witness :
  (∃ rs, [Warning condition_warning] = log w0 ++ rs)
  ∧ (index_count w0 ≤ 0)%nat.
Proof.
  apply (visit_only_adds spatial_i not_lt w0 (not_lt, None)
           (mkWorld [] [] 0 [Warning condition_warning])).
  reflexivity.
Defined.


Lemma scalar_variable_self_derivative_witness :
  let r := (v, Some (IntValue 1 [] [] ∅)) in
  visit variable_v v w0 = Return r (with_variable l0 r w0).
Proof.
  apply (scalar_variable_self_derivative variable_v v u v u l0 w0);
    reflexivity.
Defined.

Lemma other_variable_derivative_witness :
  let r := (other_var, Some (Zero [] [] ∅)) in
  visit variable_v other_var w0 = Return r (with_variable l1 r w0).
Proof.
  apply (other_variable_derivative variable_v v u l0 other_var g l1 w0 g
           (Some (Zero [] [] ∅)) w0); try reflexivity.
  discriminate.
Defined.

Lemma make_ones_diff_takes_two_indices_per_axis_witness :
  shape vec = _var_shape variable_vec
  ∧ mkWorld [] [] 2 [] = after_indices (2 * rank vec) w0.
Proof.
  apply (make_ones_diff_takes_two_indices_per_axis variable_vec vec w0
           (ufl.as_tensor (ufl._getitem (Identity 2) [At (Idx 0); At (Idx 1)])
              [0; 1])).
  reflexivity.
Defined.

Lemma sum_rule_witness :
  visit spatial_0 sum_u_g w0 = Return (sum_u_g, Some (u_dx0 + g_dx0)%ufl) w0.
Proof.
  apply (sum_rule spatial_0 sum_u_g [(g, Some g_dx0)] u u_dx0 [g_dx0] w0 w0);
    reflexivity.
Defined.

Lemma product_rule_witness :
  visit spatial_0 product_u_g w0
  = Return (product_u_g,
            Some (Zero [] [] ∅ + ufl.Product [u_dx0; g]
                  + ufl.Product [u; g_dx0])%ufl) w0.
Proof.
  apply (product_rule spatial_0 product_u_g u u_dx0 g g_dx0 (Zero [] [] ∅)
           w0 w0); reflexivity.
Defined.

Lemma division_rule_witness :
  visit spatial_0 quotient_u_g w0
  = Return (quotient_u_g, Some ((u_dx0 - quotient_u_g * g_dx0) / g)%ufl) w0
  ∧ visit spatial_0 quotient_w4_g w0
    = Raise (UFLException "Not expecting nonscalar nominator").
Proof.
  split.
  - exact (division_rule spatial_0 quotient_u_g u u_dx0 g g_dx0 w0 w0
             eq_refl eq_refl).
  - exact (division_rule spatial_0 quotient_w4_g w4
             (ufl.SpatialDerivative w4 (Single (FixedIndex 0))) g g_dx0 w0 w0
             eq_refl eq_refl).
Defined.

Lemma list_tensor_rule_witness :
  visit spatial_0 list_u_g w0
  = Return (list_u_g, Some (ufl.ListTensor [u_dx0; g_dx0])) w0.
Proof.
  destruct (list_tensor_rule spatial_0 list_u_g
              [(u, Some u_dx0); (g, Some g_dx0)] w0 w0 eq_refl eq_refl)
    as [Hall _].
  apply (Hall [u_dx0; g_dx0]). reflexivity.
Defined.

Lemma chain_rule_table_witness :
  visit spatial_0 sin_x w0
  = Return (sin_x, Some (IntValue 1 [] [] ∅ * ufl.cos x1)%ufl) w0.
Proof.
  apply (chain_rule_table spatial_0 sin_x x1 x1 (IntValue 1 [] [] ∅) _ w0 w0);
    reflexivity.
Defined.

Lemma restricted_rule_witness :
  visit spatial_0 u_plus w0
  = Return (u_plus, Some (ufl._restrict u_dx0 Plus)) w0.
Proof.
  exact (restricted_rule spatial_0 u_plus u u u_dx0 w0 w0
           (or_introl eq_refl) eq_refl eq_refl).
Defined.

Lemma indexed_rule_witness :
  visit spatial_i u_i w0
  = Return (u_i,
            Some (ufl.Indexed (ufl.SpatialDerivative w4 (Single (Idx 7)))
                    (Multi (MultiIndex [Idx 7] {[7 := 2]})))) w0.
Proof.
  exact (indexed_rule spatial_i u_i w4 (MultiIndex [Idx 7] {[7 := 2]}) w4
           (ufl.SpatialDerivative w4 (Single (Idx 7))) w0 w0
           eq_refl eq_refl eq_refl eq_refl).
Defined.

(** The derivative of [v[0]] with respect to the vector variable [v]: the
    identity of rank two is indexed by [0] and one new index. *)
Example indexed_rank_excess_run :
  let d := ufl.as_tensor
             (ufl._getitem (Identity 2) [At (Idx 0); At (Idx 1)]) [0; 1] in
  let v_0 := Node KIndexed [vec; MultiIndex [FixedIndex 0] ∅] [] [] ∅ in
  visit variable_vec v_0 w0
  = Return (v_0,
            Some (ufl.as_tensor
                    (ufl.Indexed d (Tup [FixedIndex 0; Idx 2])) [2]))
      (mkWorld [] [(Node (KLabel 2) [] [] [] ∅, (vec, Some d))] 3 []).
Proof. reflexivity. Qed.

Lemma spatial_derivative_rule_witness :
  visit spatial_i dx8_one w0
  = Return (dx8_one, Some (Zero [] [7; 8] ({[8 := 2]} ∪ {[7 := 2]}))) w0.
Proof.
  exact (spatial_derivative_rule spatial_i dx8_one one
           (MultiIndex [Idx 8] {[8 := 2]}) (Idx 8) one (Zero [] [7] {[7 := 2]})
           w0 w0 eq_refl eq_refl eq_refl eq_refl).
Defined.

Lemma coefficient_direction_witness :
  visit coefficient_empty u w0
  = Return (u, Some du)
      (logged [Debug "In CoefficientAD.coefficient:"; Debug "o = %s";
               Debug "self._w = %s"; Debug "self._v = %s"] w0).
Proof.
  apply (coefficient_direction coefficient_empty u 0 (Tuple [u]) (Tuple [du])
           (ExprMapping []) 0 du w0); try reflexivity.
  intros j Hj. lia.
Defined.

Lemma single_entry_needs_single_direction_witness :
  visit coefficient_two c2 w0
  = Raise (UFLException ("Got a tuple of arguments, "
              +:+ "expecting a matching tuple of coefficient derivatives.")).
Proof.
  apply (single_entry_needs_single_direction coefficient_two c2 2
           (Tuple [u; g]) (Tuple [du; dg]) (ExprMapping [c2; one]) one w0);
    try reflexivity.
  - cbn. set_solver.
  - cbn. lia.
Defined.

Lemma built_visitor_has_zero_diff_witness :
  (length (_var_free_indices spatial_i) ≤ 1)%nat
  ∧ _var_shape spatial_i = []
  ∧ ∀ o w1, ∃ fi idims,
      ForwardAD._make_zero_diff spatial_i o w1
      = Return (Zero (shape o) fi idims) w1.
Proof.
  apply (built_visitor_has_zero_diff spatial_i 2 (MultiIndex [Idx 7] {[7 := 2]})
           u u u None w0 w0).
  left. reflexivity.
Defined.

Lemma comparison_warns_on_dependence_witness :
  visit spatial_i lt_u_one w0
  = Return (lt_u_one, None) (logged [Warning condition_warning] w0).
Proof.
  exact (comparison_warns_on_dependence spatial_i lt_u_one
           (u, Some (ufl.SpatialDerivative u (Single (Idx 7))))
           (one, Some (Zero [] [7] {[7 := 2]})) w0 w0 eq_refl eq_refl).
Defined.

Lemma zero_propagates_through_indexing_witness :
  visit spatial_i cvec_3 w0
  = Return (cvec_3, Some (Zero [] [3; 7] ({[3 := 2]} ∪ {[7 := 2]}))) w0.
Proof.
  exact (zero_propagates_through_indexing spatial_i cvec_3 cvec
           (MultiIndex [Idx 3] {[3 := 2]}) cvec (Zero [2] [7] {[7 := 2]})
           w0 w0 (or_introl eq_refl) eq_refl eq_refl eq_refl).
Defined.

Lemma component_tensor_rule_witness :
  let d := ufl.as_tensor
             (ufl._getitem (Identity 2) [At (Idx 0); At (Idx 1)]) [0; 1] in
  let Ap := ufl.as_tensor (ufl.Indexed d (Tup [Idx 5; Idx 2])) [2] in
  visit variable_vec ct_vec w0
  = Return (ct_vec,
            Some (ufl.ComponentTensor (ufl._getitem Ap [At (Idx 3)])
                    (Tup [Idx 5; Idx 3])))
      (mkWorld [] [(Node (KLabel 2) [] [] [] ∅, (vec, Some d))] 4 []).
Proof.
  intros d Ap.
  exact (component_tensor_rule variable_vec ct_vec vec_5
           (MultiIndex [Idx 5] {[5 := 2]}) vec_5 Ap w0
           (mkWorld [] [(Node (KLabel 2) [] [] [] ∅, (vec, Some d))] 3 [])
           eq_refl eq_refl eq_refl eq_refl).
Defined.

Lemma spatial_leaves_witness :
  visit spatial_i u w0
  = Return (u, Some (ufl.SpatialDerivative u (Single (Idx 7)))) w0.
Proof.
  destruct (spatial_leaves spatial_i (Idx 7) u 0 w0 eq_refl) as [Hform _].
  apply Hform. left. reflexivity.
Defined.

Lemma table_entry_scalar_direction_witness :
  visit coefficient_vec_entry c2 w0
  = Return (c2, Some (Zero [] [] ∅
                      + ufl._getitem w4 [At (Idx 0)]
                        * ufl._getitem du [At (Idx 0)])%ufl)
      (after_indices 1
         (logged [Debug "In CoefficientAD.coefficient:"; Debug "o = %s";
                  Debug "self._w = %s"; Debug "self._v = %s"] w0)).
Proof.
  apply (table_entry_scalar_direction coefficient_vec_entry c2 2
           (Tuple [u]) (Tuple [du]) (ExprMapping [c2; w4]) w4 du w0);
    try reflexivity.
  cbn. set_solver.
Defined.

Lemma math_function_rule_witness :
  visit spatial_0 erfc_u w0 = Raise (UFLException "Unknown math function.").
Proof.
  exact (math_function_rule spatial_0 erfc_u "erfc" u u u_dx0 w0 w0
           eq_refl eq_refl eq_refl).
Defined.

Lemma unwired_rules_are_not_reached_witness :
  visit spatial_0 tr_u w0
  = Raise (UFLException "Missing ForwardAD handler for type %s")
  ∧ UnusedADRules.commute tr_u (u, Some u_dx0) w0
    = Return (tr_u, Some (ufl.reconstruct tr_u [u_dx0])) w0
  ∧ UnimplementedADRules.inverse tr_u (u, Some u_dx0) w0
    = Return (tr_u, Some ((- tr_u) * u_dx0 * tr_u)%ufl) w0.
Proof.
  apply unwired_rules_are_not_reached. right. left. reflexivity.
Defined.
